(** * Currency exchange rate pipeline: the missing-month sub-pipeline

    A shallow embedding of [src/pipeline.py].  The pipeline is a sequence
    of tasks that read and write CSV files in one data directory and
    print progress lines.  The embedding keeps that shape:

    - a [World] holds the files (a finite map from paths to CSV rows) and
      the lines printed so far; every task is a function on worlds;
    - a Python exception is a [Raise] in the [result] type; a task that
      returns [None] returns [None] here too;
    - the CSV text layer ([csv.reader], [csv.writer], [to_csv]) is taken
      as a faithful round trip between a file and its list of rows, so a
      file is its list of rows, header row first;
    - the data directory exists and can be written to, so
      [DATA_DIR.mkdir(exist_ok=True)] does nothing and [open(path, "w")]
      does not fail;
    - the orchestration decorators ([@task], [@flow]) run their function
      once and hand back its value; they are left out;
    - what pandas computes on its own (reading a date out of a text, the
      floating-point statistics of a group of rates) is a parameter, see
      the section [Pandas]. *)

From Equations Require Import Equations.
From stdpp Require Import gmap strings list sorting pretty.

Local Open Scope Z_scope.

(** ** Paths, files and the world *)

(** A [pathlib.Path] as the pipeline builds it: a directory and the final
    component, which is what [file_path.name] reads back. *)
Record Path := mkPath { parent : string; name : string }.

#[global] Instance Path_eq_dec : EqDecision Path.
Proof. solve_decision. Defined.

#[global] Instance Path_countable : Countable Path :=
  inj_countable' (λ p, (parent p, name p)) (λ x, mkPath x.1 x.2)
    (λ p, match p with mkPath _ _ => eq_refl end).

Definition DATA_DIR : string := "data".

(** [DATA_DIR / file_name] *)
Definition data_file (file_name : string) : Path := mkPath DATA_DIR file_name.

(** The text an f-string shows for a path. *)
Definition path_str (p : Path) : string := parent p +:+ "/" +:+ name p.

(** The files of the data directory and the standard output. *)
Record World := mkWorld {
  files : gmap Path (list (list string));
  stdout : list string
}.

Definition print (line : string) (w : World) : World :=
  mkWorld (files w) (stdout w ++ [line]).

(** [open(path, "w")] followed by writing the rows: the file is replaced. *)
Definition write_rows (p : Path) (rows : list (list string)) (w : World) : World :=
  mkWorld (<[p := rows]> (files w)) (stdout w).

(** [path.exists()] *)
Definition path_exists (p : Path) (w : World) : bool :=
  bool_decide (is_Some (files w !! p)).

(** ** Exceptions *)

Inductive exn :=
| FileNotFoundError (p : Path)
| StopIteration
| IndexError
| EmptyDataError
| KeyError (key : string)
| ValueError (msg : string).

Inductive result (A : Type) :=
| Ok (a : A)
| Raise (e : exn).
Arguments Ok {A} a.
Arguments Raise {A} e.

#[global] Instance result_ret : MRet result := λ A a, Ok a.
#[global] Instance result_bind : MBind result := λ A B f m,
  match m with
  | Ok a => f a
  | Raise e => Raise e
  end.

(** The text of [str(e)] in the messages of the [except] branches. *)
Definition exn_str (e : exn) : string :=
  match e with
  | FileNotFoundError p => "[Errno 2] No such file or directory: '" +:+ path_str p +:+ "'"
  | StopIteration => ""
  | IndexError => "list index out of range"
  | EmptyDataError => "No columns to parse from file"
  | KeyError key => "'" +:+ key +:+ "'"
  | ValueError msg => msg
  end.

(** ** Reading CSV files *)

(** [open(path, "r")] and [csv.reader(f)]: the rows of the file. *)
Definition csv_reader (p : Path) (w : World) : result (list (list string)) :=
  match files w !! p with
  | Some rows => Ok rows
  | None => Raise (FileNotFoundError p)
  end.

(** [next(reader)]: the first row and the rest of the reader. *)
Definition next_row (reader : list (list string))
  : result (list string * list (list string)) :=
  match reader with
  | [] => Raise StopIteration
  | row :: rest => Ok (row, rest)
  end.

(** [row[0]] *)
Definition row_0 (row : list string) : result string :=
  match row with
  | [] => Raise IndexError
  | c :: _ => Ok c
  end.

(** [[row[0] for row in reader]] *)
Fixpoint first_fields (reader : list (list string)) : result (list string) :=
  match reader with
  | [] => Ok []
  | row :: rest =>
      c ← row_0 row;
      cs ← first_fields rest;
      Ok (c :: cs)
  end.

(** The rows below the header: [next(reader)] to skip it, then the
    first field of every row. *)
Definition read_first_column (p : Path) (w : World) : result (list string) :=
  reader ← csv_reader p w;
  hr ← next_row reader;
  first_fields hr.2.

(** A pandas frame as this pipeline uses it: the column names of the
    header line and the data rows, every cell kept as the text of the
    file.  pandas turns a column into numbers when all its cells are
    numeric; the columns read back here hold month keys such as
    [2024-01], which stay text. *)
Record DataFrame := mkDataFrame {
  columns : list string;
  rows : list (list string)
}.

(** [pd.read_csv(path)] *)
Definition read_csv (p : Path) (w : World) : result DataFrame :=
  match files w !! p with
  | None => Raise (FileNotFoundError p)
  | Some [] => Raise EmptyDataError
  | Some (header :: data) => Ok (mkDataFrame header data)
  end.

Fixpoint column_index (col : string) (cols : list string) : option nat :=
  match cols with
  | [] => None
  | c :: rest =>
      if decide (c = col) then Some 0%nat else S <$> column_index col rest
  end.

(** [df[col]]: the cells of one column.  A row too short to have the
    cell holds NaN there in pandas; NaN is equal to no string, so such
    cells are left out of the column. *)
Definition get_column (col : string) (df : DataFrame) : result (list string) :=
  match column_index col (columns df) with
  | None => Raise (KeyError col)
  | Some i => Ok (omap (λ row : list string, row !! i) (rows df))
  end.

(** ** Strings *)

(** [s.replace(old, new)] for a non-empty [old]: every occurrence of
    [old], found from the left and without overlap, is replaced.  [skip]
    counts the characters of a match that are still to be dropped. *)
Fixpoint replace_from (old new : string) (skip : nat) (s : string) : string :=
  match s with
  | EmptyString => EmptyString
  | String c rest =>
      match skip with
      | S k => replace_from old new k rest
      | O =>
          if String.prefix old s
          then new +:+ replace_from old new (String.length old - 1)%nat rest
          else String c (replace_from old new 0%nat rest)
      end
  end.

Definition replace (old new s : string) : string := replace_from old new 0%nat s.

(** ** Ordering of the report rows *)

(** Python compares strings character by character, by character code
    ([String.le] is that order), and tuples field by field; [sorted] on a
    list of [(pair, month)] tuples uses this order. *)
Definition entry_le (a b : string * string) : Prop :=
  a.1 ≠ b.1 ∧ String.le a.1 b.1 ∨ a.1 = b.1 ∧ String.le a.2 b.2.

#[global] Instance entry_le_dec : RelDecision entry_le.
Proof. intros a b. unfold entry_le. apply _. Defined.

(** [sorted(xs)]: a stable merge sort.  Both orders used here are total
    and antisymmetric, so the sorted list does not depend on the sorting
    algorithm. *)
Definition sorted_entries (xs : list (string * string)) : list (string * string) :=
  merge_sort entry_le xs.

Definition sorted_strings (xs : list string) : list string :=
  merge_sort String.le xs.

(** Boolean comparisons of integers in hypotheses, as propositions. *)
Ltac zbool :=
  repeat match goal with
  | H : negb _ = true |- _ => apply negb_true_iff in H
  | H : negb _ = false |- _ => apply negb_false_iff in H
  | H : _ && _ = true |- _ => apply andb_true_iff in H; destruct H
  | H : _ || _ = false |- _ => apply orb_false_iff in H; destruct H
  | H : _ && _ = false |- _ => apply andb_false_iff in H; destruct H
  | H : _ || _ = true |- _ => apply orb_true_iff in H; destruct H
  | H : (_ <=? _) = true |- _ => apply Z.leb_le in H
  | H : (_ <=? _) = false |- _ => apply Z.leb_gt in H
  | H : (_ <? _) = true |- _ => apply Z.ltb_lt in H
  | H : (_ <? _) = false |- _ => apply Z.ltb_ge in H
  | H : (_ =? _) = true |- _ => apply Z.eqb_eq in H
  | H : (_ =? _) = false |- _ => apply Z.eqb_neq in H
  end.

(** ** Timestamps *)

(** A [pd.Timestamp] read from a date without a time of day, as the
    dates report holds them: a calendar date.  pandas keeps timestamps
    between the years 1677 and 2262; that bound is not modelled, years
    are unbounded integers. *)
Record Timestamp := mkTimestamp { year : Z; month : Z; day : Z }.

Definition is_leap_year (y : Z) : bool :=
  (y mod 4 =? 0) && (negb (y mod 100 =? 0) || (y mod 400 =? 0)).

Definition days_in_month (y m : Z) : Z :=
  if m =? 2 then (if is_leap_year y then 29 else 28)
  else if (m =? 4) || (m =? 6) || (m =? 9) || (m =? 11) then 30
  else 31.

(** [pd.Timestamp(year=y, month=m, day=d)]: a date that is not on the
    calendar raises [ValueError]. *)
Definition Timestamp_new (y m d : Z) : result Timestamp :=
  if (1 <=? m) && (m <=? 12) && (1 <=? d) && (d <=? days_in_month y m)
  then Ok (mkTimestamp y m d)
  else Raise (ValueError "date out of range").

(** [a < b] and [a <= b] on timestamps: chronological order. *)
Definition Timestamp_ltb (a b : Timestamp) : bool :=
  (year a <? year b)
  || (year a =? year b) && ((month a <? month b)
      || (month a =? month b) && (day a <? day b)).

Definition Timestamp_leb (a b : Timestamp) : bool := negb (Timestamp_ltb b a).

(** [min(xs)] and [max(xs)] of a non-empty list: Python keeps the first
    element and replaces it by a later one that is strictly smaller
    (strictly larger). *)
Definition py_min (first : Timestamp) (others : list Timestamp) : Timestamp :=
  foldl (λ best x, if Timestamp_ltb x best then x else best) first others.

Definition py_max (first : Timestamp) (others : list Timestamp) : Timestamp :=
  foldl (λ best x, if Timestamp_ltb best x then x else best) first others.

(** [f"{m:02d}"] for a month number. *)
Definition pad2 (m : Z) : string :=
  if (0 <=? m) && (m <? 10) then "0" +:+ pretty m else pretty m.

(** [t.strftime("%Y-%m")] *)
Definition strftime_Ym (t : Timestamp) : string :=
  pretty (year t) +:+ "-" +:+ pad2 (month t).

(** The month that follows the month of [t], as the loop of
    [generate_expected_months] builds it. *)
Definition next_month (t : Timestamp) : result Timestamp :=
  if month t =? 12
  then Timestamp_new (year t + 1) 1 1
  else Timestamp_new (year t) (month t + 1) 1.

(** The number of months, counted from year 0, at which a month lies. *)
Definition month_index (y m : Z) : Z := y * 12 + m.

Definition months_left (current_date max_date : Timestamp) : nat :=
  Z.to_nat (12 * (year max_date - year current_date) + (12 - month current_date) + 1).

(** The [while current_date <= max_date] loop of
    [generate_expected_months]. *)
Equations? month_loop (current_date max_date : Timestamp)
    (expected_months : list string) : result (list string)
    by wf (months_left current_date max_date) lt :=
  month_loop current_date max_date expected_months
    with Logic.inspect (Timestamp_leb current_date max_date) := {
    | exist _ true Hle with Logic.inspect (next_month current_date) := {
        | exist _ (Ok next) Hnext =>
            month_loop next max_date (expected_months ++ [strftime_Ym current_date])
        | exist _ (Raise e) _ => Raise e }
    | exist _ false _ => Ok expected_months }.
Proof.
  clear month_loop.
  destruct current_date as [y m d], max_date as [y' m' d'], next as [yn mn dn].
  unfold months_left, next_month, Timestamp_new, Timestamp_leb, Timestamp_ltb in *.
  simpl in *.
  destruct (m =? 12) eqn:Hm;
    [| match type of Hnext with (if ?c then _ else _) = _ =>
         destruct c eqn:Hc; [|discriminate] end ];
    injection Hnext as <- <- <-; zbool; lia.
Qed.

(** ** The tasks and flows *)

Definition pairs_header : list string := ["currency_pair"].
Definition dates_header : list string := ["date"].
Definition stats_header : list string := ["month_str"; "low"; "high"; "average"].
Definition missing_header : list string := ["currency_pair"; "month"].

(** [collect_currency_pairs]: the pair is read off the file name; the
    file itself is not opened. *)
Definition collect_currency_pairs (file_path : Path) : gset string :=
  let file_name := name file_path in
  let currency_pair := replace ".csv" "" file_name in
  {[ currency_pair ]}.

Definition write_currency_pairs_to_csv (currency_pairs : gset string) (w : World)
  : World * Path :=
  let output_file := data_file "pairs.csv" in
  let w1 :=
    write_rows output_file
      (pairs_header :: ((λ pair, [pair]) <$> sorted_strings (elements currency_pairs))) w in
  (print ("Saved currency pairs to " +:+ path_str output_file) w1, output_file).

(** The loop of [collect_currency_pairs_flow]. *)
Fixpoint collect_currency_pairs_loop (input_files : list Path)
    (all_currency_pairs : gset string) : gset string :=
  match input_files with
  | [] => all_currency_pairs
  | file_path :: rest =>
      let pairs := collect_currency_pairs file_path in
      collect_currency_pairs_loop rest (all_currency_pairs ∪ pairs)
  end.

Definition collect_currency_pairs_flow (input_files : list Path) (w : World)
  : World * Path :=
  let all_currency_pairs := collect_currency_pairs_loop input_files ∅ in
  write_currency_pairs_to_csv all_currency_pairs w.

Definition write_dates_to_csv (dates : gset string) (w : World) : World * Path :=
  let output_file := data_file "dates.csv" in
  let w1 :=
    write_rows output_file
      (dates_header :: ((λ date, [date]) <$> sorted_strings (elements dates))) w in
  (print ("Saved dates to " +:+ path_str output_file) w1, output_file).

(** The per-pair files: [DATA_DIR / f"{currency_pair}_monthly_stats.csv"]
    and [DATA_DIR / f"{currency_pair}_missing_data.csv"]. *)
Definition stats_file (currency_pair : string) : Path :=
  data_file (currency_pair +:+ "_monthly_stats.csv").

Definition missing_file (currency_pair : string) : Path :=
  data_file (currency_pair +:+ "_missing_data.csv").

(** [identify_missing_data_for_pair] *)
Definition identify_missing_data_for_pair (currency_pair : string)
    (expected_months : list string) (w : World) : World * option Path :=
  let monthly_stats_file := stats_file currency_pair in
  let output_file := missing_file currency_pair in
  if negb (path_exists monthly_stats_file w) then
    let w1 :=
      print ("Warning: Monthly stats file for " +:+ currency_pair +:+ " does not exist") w in
    let w2 :=
      write_rows output_file
        (missing_header :: ((λ month, [currency_pair; month]) <$> expected_months)) w1 in
    (w2, Some output_file)
  else
    match
      monthly_stats ← read_csv monthly_stats_file w;
      month_str ← get_column "month_str" monthly_stats;
      Ok (list_to_set month_str : gset string)
    with
    | Ok available_months =>
        let missing_months :=
          filter (λ month, month ∉ available_months) expected_months in
        let w1 :=
          write_rows output_file
            (missing_header :: ((λ month, [currency_pair; month]) <$> missing_months)) w in
        (print ("Saved missing data for " +:+ currency_pair +:+ " to "
                  +:+ path_str output_file) w1,
         Some output_file)
    | Raise e =>
        (print ("Error identifying missing data for " +:+ currency_pair +:+ ": "
                  +:+ exn_str e) w,
         None)
    end.

(** The loop of [identify_missing_data_flow]. *)
Fixpoint identify_missing_data_loop (currency_pairs : list string)
    (expected_months : list string) (missing_data_files : list Path) (w : World)
  : World * list Path :=
  match currency_pairs with
  | [] => (w, missing_data_files)
  | currency_pair :: rest =>
      let r := identify_missing_data_for_pair currency_pair expected_months w in
      identify_missing_data_loop rest expected_months
        (match r.2 with
         | Some missing_data_file => missing_data_files ++ [missing_data_file]
         | None => missing_data_files
         end) r.1
  end.

(** [if len(row) >= 2: currency_pair, month = row[0], row[1]] *)
Definition row_entry (row : list string) : option (string * string) :=
  match row with
  | currency_pair :: month :: _ => Some (currency_pair, month)
  | _ => None
  end.

Definition entry_row (e : string * string) : list string := [e.1; e.2].

(** The loop over [missing_data_files] of [aggregate_missing_data]: a
    file that cannot be read is reported and skipped. *)
Fixpoint collect_missing_data (missing_data_files : list Path)
    (all_missing_data : list (string * string)) (w : World)
  : World * list (string * string) :=
  match missing_data_files with
  | [] => (w, all_missing_data)
  | file_path :: rest =>
      match reader ← csv_reader file_path w; next_row reader with
      | Ok hr =>
          collect_missing_data rest (all_missing_data ++ omap row_entry hr.2) w
      | Raise e =>
          collect_missing_data rest all_missing_data
            (print ("Error reading " +:+ path_str file_path +:+ ": " +:+ exn_str e) w)
      end
  end.

(** [set(row[0] for row in reader)] on the pairs file, below its header:
    the known pairs. *)
Definition read_known_pairs (pairs_file : Path) (w : World) : result (gset string) :=
  pairs ← read_first_column pairs_file w;
  Ok (list_to_set pairs).

(** [DATA_DIR / "missing_data.csv"] *)
Definition aggregate_file : Path := data_file "missing_data.csv".

(** [aggregate_missing_data].  [all_currency_pairs] is read from the
    pairs file, as in the source, and not used afterwards. *)
Definition aggregate_missing_data (missing_data_files : list Path) (pairs_file : Path)
    (w : World) : result (World * Path) :=
  let output_file := aggregate_file in
  all_currency_pairs ← read_known_pairs pairs_file w;
  let collected := collect_missing_data missing_data_files [] w in
  let w1 :=
    write_rows output_file
      (missing_header :: (entry_row <$> sorted_entries collected.2)) collected.1 in
  Ok (print ("Saved aggregate missing data to " +:+ path_str output_file) w1,
      output_file).


Section Pandas.

(** Two computations are done by pandas and are not part of this
    repository: reading a date out of a text ([pd.to_datetime]) and the
    grouped minimum, maximum and mean of floating-point rates.  They
    are taken as they come:
    - [parse_date s] is the year, month and day pandas reads in [s], or
      [None] when pandas rejects the text;
    - [monthly_table df] is the list of rows
      [month_str, low, high, average] computed from a frame that has
      the [DATE] and [RATE] columns (lines 333 to 349 of the source),
      or the exception pandas raises. *)
Variable parse_date : string → option (Z * Z * Z).
Variable monthly_table : DataFrame → result (list (list string)).

(** [pd.to_datetime(date)] *)
Definition to_datetime (date : string) : result Timestamp :=
  match parse_date date with
  | Some (y, m, d) => Timestamp_new y m d
  | None => Raise (ValueError ("Unknown datetime string format: " +:+ date))
  end.

(** [[pd.to_datetime(date) for date in dates]] *)
Fixpoint to_datetimes (dates : list string) : result (list Timestamp) :=
  match dates with
  | [] => Ok []
  | date :: rest =>
      t ← to_datetime date;
      ts ← to_datetimes rest;
      Ok (t :: ts)
  end.

(** [generate_expected_months] *)
Definition generate_expected_months (dates_file : Path) (w : World)
  : result (list string) :=
  dates ← read_first_column dates_file w;
  match dates with
  | [] => Ok []
  | date :: more =>
      first ← to_datetime date;
      others ← to_datetimes more;
      let min_date := py_min first others in
      let max_date := py_max first others in
      current_date ← Timestamp_new (year min_date) (month min_date) 1;
      month_loop current_date max_date []
  end.

(** [identify_missing_data_flow] *)
Definition identify_missing_data_flow (pairs_file dates_file : Path) (w : World)
  : result (World * list Path) :=
  expected_months ← generate_expected_months dates_file w;
  currency_pairs ← read_first_column pairs_file w;
  Ok (identify_missing_data_loop currency_pairs expected_months [] w).

(** [compute_monthly_stats] *)
Definition compute_monthly_stats (file_path : Path) (w : World) : World * option Path :=
  let file_name := name file_path in
  let currency_pair := replace ".csv" "" file_name in
  let output_file := stats_file currency_pair in
  match read_csv file_path w with
  | Ok df =>
      if bool_decide ("DATE" ∈ columns df) && bool_decide ("RATE" ∈ columns df) then
        match monthly_table df with
        | Ok monthly_stats =>
            let w1 := write_rows output_file (stats_header :: monthly_stats) w in
            (print ("Saved monthly stats for " +:+ currency_pair +:+ " to "
                      +:+ path_str output_file) w1,
             Some output_file)
        | Raise e =>
            (print ("Error computing monthly stats for " +:+ path_str file_path
                      +:+ ": " +:+ exn_str e) w,
             None)
        end
      else
        (print ("Warning: Required columns not found in " +:+ path_str file_path) w,
         None)
  | Raise e =>
      (print ("Error computing monthly stats for " +:+ path_str file_path
                +:+ ": " +:+ exn_str e) w,
       None)
  end.



End Pandas.

(** A reader of dates written [YYYY-MM-DD], the form of the dates report;
    it stands for [pd.to_datetime] where a concrete reader is needed. *)
Fixpoint digits_value (acc : Z) (s : string) : option Z :=
  match s with
  | EmptyString => Some acc
  | String c rest =>
      match Ascii.is_nat c with
      | Some n => digits_value (acc * 10 + Z.of_nat n) rest
      | None => None
      end
  end.

Definition parse_number (s : string) : option Z :=
  match s with
  | EmptyString => None
  | _ => digits_value 0 s
  end.

Fixpoint split_dash (cur : string) (s : string) : list string :=
  match s with
  | EmptyString => [String.rev cur]
  | String c rest =>
      if Ascii.eqb c (Ascii.ascii_of_nat 45) then String.rev cur :: split_dash "" rest
      else split_dash (String c cur) rest
  end.

Definition parse_iso_date (s : string) : option (Z * Z * Z) :=
  match split_dash "" s with
  | [ys; ms; ds] =>
      y ← parse_number ys;
      m ← parse_number ms;
      d ← parse_number ds;
      Some (y, m, d)
  | _ => None
  end.

(** ** Notions used in the statements *)

(** [sub in s]: [sub] occurs somewhere in [s]. *)
Fixpoint occurs (sub s : string) : bool :=
  match s with
  | EmptyString => String.prefix sub s
  | String _ rest => String.prefix sub s || occurs sub rest
  end.

(** The entries a missing-data file contributes to the aggregate: none
    when the file is absent or empty, else the rows below the header
    that have at least two fields. *)
Definition file_entries (w : World) (p : Path) : list (string * string) :=
  match files w !! p with
  | Some (_ :: body) => omap row_entry body
  | _ => []
  end.

(** The file a per-pair missing-data sequence is stored in. *)
Definition holds_entries (w : World) (p : Path) (entries : list (string * string)) : Prop :=
  ∃ header, files w !! p = Some (header :: (entry_row <$> entries)).

(** The pairs of a list of input files, in the order of the pairs
    report. *)
Definition pairs_of_files (input_files : list Path) : list string :=
  sorted_strings
    (elements
       (list_to_set ((λ file_path, replace ".csv" "" (name file_path)) <$> input_files)
          : gset string)).

(** A collection of sequences reordered: the sequences are permuted and
    so are the entries inside each of them. *)
Definition shuffled (ess ess' : list (list (string * string))) : Prop :=
  ∃ mid, ess ≡ₚ mid ∧ Forall2 (≡ₚ) mid ess'.

(** The pair's monthly stats can be read: the file has a header line
    with the [month_str] column. *)
Definition stats_readable (w : World) (currency_pair : string) : Prop :=
  ∃ header stats i,
    files w !! stats_file currency_pair = Some (header :: stats)
    ∧ column_index "month_str" header = Some i.

(** A date pandas can hold. *)
Definition valid_date (t : Timestamp) : Prop :=
  1 ≤ month t ≤ 12 ∧ 1 ≤ day t ≤ days_in_month (year t) (month t).

(** The month key of a year and a month, [YYYY-MM]. *)
Definition month_key (k : Z * Z) : string := pretty k.1 +:+ "-" +:+ pad2 k.2.

(** The calendar month after a month. *)
Definition succ_month (k : Z * Z) : Z * Z :=
  if k.2 =? 12 then (k.1 + 1, 1) else (k.1, k.2 + 1).

(** [n] consecutive calendar months from a month on. *)
Fixpoint month_range (k : Z * Z) (n : nat) : list (Z * Z) :=
  match n with
  | O => []
  | S n' => k :: month_range (succ_month k) n'
  end.

(** ** The other tasks and flows *)




Definition raw_columns : list string :=
  ["CURRENCY"; "CURRENCY_DENOM"; "TIME_PERIOD"; "OBS_VALUE"].

Definition cleaned_header : list string :=
  ["CURRENCY"; "CURRENCY_DENOM"; "DATE"; "RATE"].

(** [DATA_DIR / f"EUR_{currency}.csv"] *)
Definition cleaned_file (currency : string) : Path :=
  data_file ("EUR_" +:+ currency +:+ ".csv").

Section Cleaning.

(** [cleaned_rows df] is the list of data rows that [to_csv] writes for
    the four selected columns of a frame that has them (pandas renders
    the cells it has read, numbers in its own format). *)
Variable cleaned_rows : DataFrame → list (list string).

(** [clean_up_currency_data] *)
Definition clean_up_currency_data (file_path : Path) (w : World) : World * option Path :=
  let file_name := name file_path in
  let currency := replace ".csv" "" (replace "ECB_EUR_" "" file_name) in
  let output_file := cleaned_file currency in
  match read_csv file_path w with
  | Ok df =>
      if forallb (λ col, bool_decide (col ∈ columns df)) raw_columns then
        let w1 := write_rows output_file (cleaned_header :: cleaned_rows df) w in
        (print ("Saved cleaned data for EUR/" +:+ currency +:+ " to "
                  +:+ path_str output_file) w1,
         Some output_file)
      else
        (print ("Warning: Required columns not found in " +:+ path_str file_path) w,
         None)
  | Raise e =>
      (print ("Error cleaning up data for " +:+ path_str file_path +:+ ": "
                +:+ exn_str e) w,
       None)
  end.



End Cleaning.


Section WholePipeline.

(** The download of the raw files goes over the network and looks at
    the clock; it is taken as it comes: [download_currency_data_flow w]
    is the world it leaves and the list of raw files it returns, or the
    exception it raises. *)
Variable download_currency_data_flow : World → result (World * list Path).
Variable cleaned_rows : DataFrame → list (list string).
Variable parse_date : string → option (Z * Z * Z).
Variable monthly_table : DataFrame → result (list (list string)).


End WholePipeline.

(** ** Notions used in the further properties *)

(** The months the Gap Detector finds missing for a pair in a world, or
    [None] when it gives up: every expected month when the pair has no
    stats file, the expected months outside the [month_str] column when
    the stats file can be read. *)
Definition pair_gaps (w : World) (expected_months : list string) (currency_pair : string)
  : option (list string) :=
  match files w !! stats_file currency_pair with
  | None => Some expected_months
  | Some [] => None
  | Some (header :: stats) =>
      match column_index "month_str" header with
      | Some i =>
          Some (filter (λ month, month ∉ omap (λ row : list string, row !! i) stats)
                  expected_months)
      | None => None
      end
  end.

(** The rows of a per-pair missing-data file. *)
Definition missing_rows (currency_pair : string) (months : list string)
  : list (list string) :=
  missing_header :: ((λ month, [currency_pair; month]) <$> months).


(** The exception the Gap Aggregator meets on an input file, if any. *)
Definition read_error (w : World) (p : Path) : option exn :=
  match files w !! p with
  | None => Some (FileNotFoundError p)
  | Some [] => Some StopIteration
  | Some (_ :: _) => None
  end.

(** The lines the Gap Aggregator prints for the input files it cannot
    read, in the order of the files. *)
Definition read_error_lines (w : World) (missing_data_files : list Path) : list string :=
  omap (λ p, (λ e, "Error reading " +:+ path_str p +:+ ": " +:+ exn_str e)
               <$> read_error w p) missing_data_files.


(** The pair a file name stands for. *)
Definition pair_of_file (file_path : Path) : string :=
  replace ".csv" "" (name file_path).

(** Strictly ascending strings. *)
Definition string_lt (a b : string) : Prop := String.le a b ∧ a ≠ b.

(** ** Concrete worlds used in the checks *)

(** Monthly stats of one pair for January and March 2024. *)
Definition world_two_months : World :=
  mkWorld
    {[ stats_file "EUR_USD" :=
         [ stats_header;
           ["2024-01"; "1.08"; "1.10"; "1.09"];
           ["2024-03"; "1.07"; "1.09"; "1.08"] ] ]}
    [].

(** A dates report from 2023-11-15 to 2024-02-03. *)
Definition world_three_dates : World :=
  mkWorld
    {[ data_file "dates.csv" :=
         [ dates_header; ["2023-11-15"]; ["2023-12-01"]; ["2024-02-03"] ] ]}
    [].

(** The dates report written from an empty set of dates. *)
Definition world_no_dates : World := (write_dates_to_csv ∅ (mkWorld ∅ [])).1.

(** Two per-pair missing-data files, and the same files with the entries
    of one of them in another order. *)
Definition world_gaps : World :=
  mkWorld
    {[ data_file "pairs.csv" := [ pairs_header; ["EUR_SEK"]; ["EUR_USD"] ];
       missing_file "EUR_USD" := [ missing_header; ["EUR_USD"; "2024-02"] ];
       missing_file "EUR_SEK" :=
         [ missing_header; ["EUR_SEK"; "2024-01"]; ["EUR_SEK"; "2024-02"];
           ["EUR_SEK"; "2024-03"] ] ]}
    [].

Definition world_gaps_shuffled : World :=
  mkWorld
    {[ data_file "pairs.csv" := [ pairs_header; ["EUR_SEK"]; ["EUR_USD"] ];
       missing_file "EUR_USD" := [ missing_header; ["EUR_USD"; "2024-02"] ];
       missing_file "EUR_SEK" :=
         [ missing_header; ["EUR_SEK"; "2024-03"]; ["EUR_SEK"; "2024-01"];
           ["EUR_SEK"; "2024-02"] ] ]}
    [].

(** One known pair, and a missing-data file for another pair. *)
Definition world_unknown_pair : World :=
  mkWorld
    {[ data_file "pairs.csv" := [ pairs_header; ["EUR_USD"] ];
       missing_file "EUR_GBP" := [ missing_header; ["EUR_GBP"; "2024-01"] ] ]}
    [].

Definition known_usd_only : gset string := {[ "EUR_USD" ]}.

(** A cleaned file with its header and no data row. *)
Definition world_header_only : World :=
  mkWorld
    {[ data_file "EUR_USD.csv" := [ ["CURRENCY"; "CURRENCY_DENOM"; "DATE"; "RATE"] ] ]}
    [].


(** The end-to-end scenario: two pairs, observations of [EUR_USD] in
    January and March 2024, none of [EUR_SEK]. *)
Definition world_scenario : World :=
  mkWorld
    {[ data_file "pairs.csv" := [ pairs_header; ["EUR_SEK"]; ["EUR_USD"] ];
       data_file "dates.csv" := [ dates_header; ["2024-01-15"]; ["2024-03-20"] ];
       stats_file "EUR_USD" :=
         [ stats_header;
           ["2024-01"; "1.08"; "1.08"; "1.08"];
           ["2024-03"; "1.09"; "1.09"; "1.09"] ] ]}
    [].

(** The world the Gap Aggregator leaves on [world_gaps]. *)
Definition world_gaps_aggregated : World :=
  mkWorld
    (<[ aggregate_file :=
          [ missing_header; ["EUR_SEK"; "2024-01"]; ["EUR_SEK"; "2024-02"];
            ["EUR_SEK"; "2024-03"]; ["EUR_USD"; "2024-02"] ] ]>
       (files world_gaps))
    ["Saved aggregate missing data to data/missing_data.csv"].

(** A raw file as downloaded, with more columns than the four kept. *)
Definition world_raw : World :=
  mkWorld
    {[ data_file "ECB_EUR_USD.csv" :=
         [ ["KEY"; "CURRENCY"; "CURRENCY_DENOM"; "TIME_PERIOD"; "OBS_VALUE"];
           ["EXR.D.USD.EUR.SP00.A"; "USD"; "EUR"; "2024-01-02"; "1.0956"] ] ]}
    [].

(** ** Checks on concrete inputs *)

Example replace_file_name : replace ".csv" "" "EUR_USD.csv" = "EUR_USD".
Proof. reflexivity. Qed.

Example replace_every_occurrence : replace ".csv" "" "X.c.csvsv.csv" = "X.csv".
Proof. reflexivity. Qed.

Example parse_iso_date_ex : parse_iso_date "2023-11-15" = Some (2023, 11, 15).
Proof. reflexivity. Qed.

Example month_loop_over_new_year :
  month_loop (mkTimestamp 2023 11 1) (mkTimestamp 2024 2 3) []
  = Ok ["2023-11"; "2023-12"; "2024-01"; "2024-02"].
Proof. vm_compute. reflexivity. Qed.

Example sorted_entries_ex :
  sorted_entries
    [("EUR_USD", "2024-02"); ("EUR_SEK", "2024-03"); ("EUR_SEK", "2024-01")]
  = [("EUR_SEK", "2024-01"); ("EUR_SEK", "2024-03"); ("EUR_USD", "2024-02")].
Proof. vm_compute. reflexivity. Qed.

Example end_to_end_scenario :
  match
    identify_missing_data_flow parse_iso_date
      (data_file "pairs.csv") (data_file "dates.csv") world_scenario
  with
  | Ok r =>
      r.2 = [missing_file "EUR_SEK"; missing_file "EUR_USD"]
      ∧ match aggregate_missing_data r.2 (data_file "pairs.csv") r.1 with
        | Ok r' =>
            files r'.1 !! r'.2
            = Some [ missing_header;
                     ["EUR_SEK"; "2024-01"]; ["EUR_SEK"; "2024-02"];
                     ["EUR_SEK"; "2024-03"]; ["EUR_USD"; "2024-02"] ]
        | Raise _ => False
        end
  | Raise _ => False
  end.
Proof. vm_compute. split; reflexivity. Qed.

(** ** The world under [print] and [write_rows] *)

Lemma files_print line w : files (print line w) = files w.
Proof. reflexivity. Qed.

Lemma files_write_rows p rows w : files (write_rows p rows w) = <[p := rows]> (files w).
Proof. reflexivity. Qed.

Lemma path_exists_true p w : path_exists p w = true ↔ is_Some (files w !! p).
Proof. unfold path_exists. apply bool_decide_eq_true. Qed.

Lemma path_exists_false p w : path_exists p w = false ↔ files w !! p = None.
Proof.
  unfold path_exists. rewrite bool_decide_eq_false, <- eq_None_not_Some. done.
Qed.

(** ** Gap Detector *)

Lemma identify_absent currency_pair expected_months w :
  files w !! stats_file currency_pair = None →
  identify_missing_data_for_pair currency_pair expected_months w =
    (write_rows (missing_file currency_pair)
       (missing_header :: ((λ month, [currency_pair; month]) <$> expected_months))
       (print ("Warning: Monthly stats file for " +:+ currency_pair +:+ " does not exist") w),
     Some (missing_file currency_pair)).
Proof.
  intros Habs. unfold identify_missing_data_for_pair.
  apply path_exists_false in Habs. rewrite Habs. reflexivity.
Qed.

Lemma identify_present currency_pair expected_months w header stats i :
  files w !! stats_file currency_pair = Some (header :: stats) →
  column_index "month_str" header = Some i →
  identify_missing_data_for_pair currency_pair expected_months w =
    (print ("Saved missing data for " +:+ currency_pair +:+ " to "
              +:+ path_str (missing_file currency_pair))
       (write_rows (missing_file currency_pair)
          (missing_header ::
             ((λ month, [currency_pair; month]) <$>
                filter (λ month, month ∉ (list_to_set (omap (λ row : list string, row !! i) stats) : gset string))
                  expected_months)) w),
     Some (missing_file currency_pair)).
Proof.
  intros Hfile Hcol. unfold identify_missing_data_for_pair.
  assert (path_exists (stats_file currency_pair) w = true) as ->.
  { apply path_exists_true. rewrite Hfile. eauto. }
  unfold read_csv. rewrite Hfile. simpl.
  unfold get_column. simpl. rewrite Hcol. reflexivity.
Qed.



(** C6.  When the pair has no monthly stats file, the Gap Detector
    returns its output file (it does not fail) and writes, under the
    header, exactly one row per expected month, in order, each row
    carrying the pair's identifier: N rows for N expected months. *)
Theorem identify_missing_data_for_pair_no_stats
    (currency_pair : string) (expected_months : list string) (w : World) :
  files w !! stats_file currency_pair = None →
  let r := identify_missing_data_for_pair currency_pair expected_months w in
  ∃ entries : list (list string),
    r.2 = Some (missing_file currency_pair)
    ∧ files r.1 !! missing_file currency_pair = Some (missing_header :: entries)
    ∧ length entries = length expected_months
    ∧ (∀ n month, expected_months !! n = Some month →
         entries !! n = Some [currency_pair; month])
    ∧ Forall (λ row, row !! 0%nat = Some currency_pair) entries.
Proof.
  intros Habs r. subst r. rewrite (identify_absent _ _ _ Habs). simpl.
  exists ((λ month, [currency_pair; month]) <$> expected_months).
  split_and!.
  - done.
  - by rewrite lookup_insert_eq.
  - by rewrite length_fmap.
  - intros n month Hn. by rewrite list_lookup_fmap, Hn.
  - apply Forall_fmap, Forall_forall. done.
Qed.

Lemma identify_missing_data_for_pair_no_stats_witness :
  files (mkWorld ∅ []) !! stats_file "EUR_SEK" = None
  ∧ ∃ entries : list (list string),
      (identify_missing_data_for_pair "EUR_SEK" ["2024-01"; "2024-02"] (mkWorld ∅ [])).2
        = Some (missing_file "EUR_SEK")
      ∧ files (identify_missing_data_for_pair "EUR_SEK" ["2024-01"; "2024-02"]
                 (mkWorld ∅ [])).1 !! missing_file "EUR_SEK"
        = Some (missing_header :: entries)
      ∧ length entries = 2%nat.
Proof.
  assert (files (mkWorld ∅ []) !! stats_file "EUR_SEK" = None) as Habs
    by (vm_compute; reflexivity).
  split; [exact Habs |].
  destruct (identify_missing_data_for_pair_no_stats
              "EUR_SEK" ["2024-01"; "2024-02"] (mkWorld ∅ []) Habs)
    as (entries & Hret & Hfile & Hlen & _).
  exists entries. split_and!; [exact Hret | exact Hfile | exact Hlen].
Defined.

(** ** Calendar Expander *)

Lemma month_loop_step current_date max_date expected_months :
  month_loop current_date max_date expected_months =
    if Timestamp_leb current_date max_date then
      match next_month current_date with
      | Ok next =>
          month_loop next max_date (expected_months ++ [strftime_Ym current_date])
      | Raise e => Raise e
      end
    else Ok expected_months.
Proof.
  funelim (month_loop current_date max_date expected_months);
    match goal with
    | Hc : Timestamp_leb _ _ = _ |- _ => rewrite Hc
    end; try done.
  all: match goal with
       | Hn : next_month _ = _ |- _ => rewrite Hn
       end; done.
Qed.

Lemma days_in_month_pos y m : 28 ≤ days_in_month y m.
Proof. unfold days_in_month. repeat case_match; lia. Qed.

Lemma Timestamp_new_valid y m d t : Timestamp_new y m d = Ok t → valid_date t.
Proof.
  unfold Timestamp_new, valid_date. case_match eqn:Hc; [|done].
  intros [= <-]. simpl. zbool. lia.
Qed.

Lemma Timestamp_new_first y m :
  1 ≤ m ≤ 12 → Timestamp_new y m 1 = Ok (mkTimestamp y m 1).
Proof.
  intros Hm. unfold Timestamp_new.
  pose proof (days_in_month_pos y m).
  assert ((1 <=? m) && (m <=? 12) && (1 <=? 1) && (1 <=? days_in_month y m) = true)
    as ->; [|done].
  rewrite !andb_true_iff, !Z.leb_le. lia.
Qed.

Lemma next_month_succ y m :
  1 ≤ m ≤ 12 →
  next_month (mkTimestamp y m 1) =
    Ok (mkTimestamp (succ_month (y, m)).1 (succ_month (y, m)).2 1).
Proof.
  intros Hm. unfold next_month, succ_month. simpl.
  destruct (m =? 12) eqn:Hc; simpl; zbool.
  - by apply Timestamp_new_first.
  - apply Timestamp_new_first. lia.
Qed.

Lemma succ_month_valid k : 1 ≤ k.2 ≤ 12 → 1 ≤ (succ_month k).2 ≤ 12.
Proof. unfold succ_month. destruct (k.2 =? 12) eqn:Hc; simpl; zbool; lia. Qed.

Lemma succ_month_index k :
  month_index (succ_month k).1 (succ_month k).2 = month_index k.1 k.2 + 1.
Proof.
  unfold succ_month, month_index. destruct (k.2 =? 12) eqn:Hc; simpl; zbool; lia.
Qed.

(** First-of-month against a valid date: chronological order is the
    order of the month indices. *)
Lemma Timestamp_leb_first y m max_date :
  1 ≤ m ≤ 12 → valid_date max_date →
  Timestamp_leb (mkTimestamp y m 1) max_date = true
  ↔ month_index y m ≤ month_index (year max_date) (month max_date).
Proof.
  intros Hm [Hm' Hd']. unfold Timestamp_leb, Timestamp_ltb, month_index. simpl.
  rewrite negb_true_iff. split.
  - intros H. zbool; lia.
  - intros H. rewrite orb_false_iff, Z.ltb_ge.
    split; [lia |]. destruct (year max_date =? y) eqn:Hy; [|done]. simpl. zbool.
    rewrite orb_false_iff, Z.ltb_ge. split; [lia |].
    rewrite andb_false_iff, Z.ltb_ge. lia.
Qed.

Lemma month_loop_range (n : nat) : ∀ y m max_date expected_months,
  1 ≤ m ≤ 12 → valid_date max_date →
  Z.of_nat n =
    Z.max 0 (month_index (year max_date) (month max_date) - month_index y m + 1) →
  month_loop (mkTimestamp y m 1) max_date expected_months =
    Ok (expected_months ++ (month_key <$> month_range (y, m) n)).
Proof.
  induction n as [|n IH]; intros y m max_date acc Hm Hmax Hn;
    rewrite month_loop_step.
  - destruct (Timestamp_leb (mkTimestamp y m 1) max_date) eqn:Hle.
    + apply Timestamp_leb_first in Hle; [lia | done..].
    + simpl. by rewrite app_nil_r.
  - assert (Timestamp_leb (mkTimestamp y m 1) max_date = true) as ->.
    { apply Timestamp_leb_first; [done..|]. lia. }
    rewrite next_month_succ by done.
    pose proof (succ_month_valid (y, m) Hm) as Hv.
    pose proof (succ_month_index (y, m)) as Hi.
    destruct (succ_month (y, m)) as [y1 m1] eqn:Hs. simpl in *.
    rewrite (IH y1 m1); [| done | done | lia].
    rewrite <- Hs, <- app_assoc. reflexivity.
Qed.

Lemma length_month_range n : ∀ k, length (month_range k n) = n.
Proof. induction n as [|n IH]; intros k; simpl; [done | by rewrite IH]. Qed.

Lemma month_range_succ n : ∀ k (i : nat) a b,
  month_range k n !! i = Some a → month_range k n !! S i = Some b →
  b = succ_month a.
Proof.
  induction n as [|n IH]; intros k i a b; [done |].
  destruct i as [|i]; simpl.
  - intros [= <-]. destruct n; [done |]. simpl. by intros [= <-].
  - apply IH.
Qed.

Lemma month_range_lookup n : ∀ k (i : nat) a,
  1 ≤ k.2 ≤ 12 → month_range k n !! i = Some a →
  1 ≤ a.2 ≤ 12 ∧ month_index a.1 a.2 = month_index k.1 k.2 + Z.of_nat i.
Proof.
  induction n as [|n IH]; intros k i a Hk; [done |].
  destruct i as [|i]; simpl.
  - intros [= <-]. split; [done | lia].
  - intros Hi. apply IH in Hi as [? Hi]; [| by apply succ_month_valid].
    rewrite succ_month_index in Hi. split; [done | lia].
Qed.

Lemma month_index_inj (a b : Z * Z) :
  1 ≤ a.2 ≤ 12 → 1 ≤ b.2 ≤ 12 →
  month_index a.1 a.2 = month_index b.1 b.2 → a = b.
Proof.
  destruct a as [ya ma], b as [yb mb]. unfold month_index. simpl.
  intros ???. f_equal; lia.
Qed.

(** *** Minimum and maximum *)

Lemma Timestamp_leb_total a b : Timestamp_leb a b = true ∨ Timestamp_leb b a = true.
Proof.
  unfold Timestamp_leb, Timestamp_ltb.
  destruct a as [y m d], b as [y' m' d']. simpl.
  destruct (negb ((y' <? y) || (y' =? y) && ((m' <? m) || (m' =? m) && (d' <? d))))
    eqn:H1; [by left | right].
  rewrite negb_true_iff. rewrite negb_false_iff in H1.
  rewrite !orb_false_iff, !andb_false_iff, !orb_false_iff, !andb_false_iff,
    !Z.ltb_ge, !Z.eqb_neq.
  zbool; lia.
Qed.

Lemma Timestamp_leb_trans a b c :
  Timestamp_leb a b = true → Timestamp_leb b c = true → Timestamp_leb a c = true.
Proof.
  unfold Timestamp_leb, Timestamp_ltb.
  destruct a as [y m d], b as [y' m' d'], c as [y'' m'' d'']. simpl.
  rewrite !negb_true_iff.
  rewrite !orb_false_iff, !andb_false_iff, !orb_false_iff, !andb_false_iff,
    !Z.ltb_ge, !Z.eqb_neq.
  lia.
Qed.

Lemma Timestamp_leb_antisym a b :
  Timestamp_leb a b = true → Timestamp_leb b a = true → a = b.
Proof.
  unfold Timestamp_leb, Timestamp_ltb.
  destruct a as [y m d], b as [y' m' d']. simpl.
  rewrite !negb_true_iff.
  rewrite !orb_false_iff, !andb_false_iff, !orb_false_iff, !andb_false_iff,
    !Z.ltb_ge, !Z.eqb_neq.
  intros ??. f_equal; lia.
Qed.

Lemma Timestamp_leb_refl a : Timestamp_leb a a = true.
Proof. by destruct (Timestamp_leb_total a a). Qed.

Lemma py_min_least others : ∀ first,
  py_min first others ∈ first :: others
  ∧ ∀ t, t ∈ first :: others → Timestamp_leb (py_min first others) t = true.
Proof.
  induction others as [|x others IH]; intros first; simpl.
  - split; [apply elem_of_cons; by left |].
    intros t ->%list_elem_of_singleton. apply Timestamp_leb_refl.
  - destruct (IH (if Timestamp_ltb x first then x else first)) as [Hin Hle].
    unfold py_min in *. simpl. split.
    + apply elem_of_cons in Hin as [-> | Hin]; rewrite !elem_of_cons;
        [destruct (Timestamp_ltb x first) |]; auto.
    + intros t Ht.
      assert (Timestamp_leb (if Timestamp_ltb x first then x else first) x = true
              ∧ Timestamp_leb (if Timestamp_ltb x first then x else first) first = true)
        as [Hx Hf].
      { destruct (Timestamp_ltb x first) eqn:Hlt.
        - split; [apply Timestamp_leb_refl |].
          destruct (Timestamp_leb_total x first) as [|H]; [done |].
          unfold Timestamp_leb in H. by rewrite Hlt in H.
        - split; [| apply Timestamp_leb_refl].
          unfold Timestamp_leb. by rewrite Hlt. }
      apply elem_of_cons in Ht as [-> | Ht].
      * eapply Timestamp_leb_trans; [| exact Hf]. apply Hle, elem_of_cons. by left.
      * apply elem_of_cons in Ht as [-> | Ht].
        -- eapply Timestamp_leb_trans; [| exact Hx]. apply Hle, elem_of_cons. by left.
        -- apply Hle, elem_of_cons. by right.
Qed.

Lemma py_max_greatest others : ∀ first,
  py_max first others ∈ first :: others
  ∧ ∀ t, t ∈ first :: others → Timestamp_leb t (py_max first others) = true.
Proof.
  induction others as [|x others IH]; intros first; simpl.
  - split; [apply elem_of_cons; by left |].
    intros t ->%list_elem_of_singleton. apply Timestamp_leb_refl.
  - destruct (IH (if Timestamp_ltb first x then x else first)) as [Hin Hle].
    unfold py_max in *. simpl. split.
    + apply elem_of_cons in Hin as [-> | Hin]; rewrite !elem_of_cons;
        [destruct (Timestamp_ltb first x) |]; auto.
    + intros t Ht.
      assert (Timestamp_leb x (if Timestamp_ltb first x then x else first) = true
              ∧ Timestamp_leb first (if Timestamp_ltb first x then x else first) = true)
        as [Hx Hf].
      { destruct (Timestamp_ltb first x) eqn:Hlt.
        - split; [apply Timestamp_leb_refl |].
          destruct (Timestamp_leb_total first x) as [|H]; [done |].
          unfold Timestamp_leb in H. by rewrite Hlt in H.
        - split; [| apply Timestamp_leb_refl].
          unfold Timestamp_leb. by rewrite Hlt. }
      apply elem_of_cons in Ht as [-> | Ht].
      * eapply Timestamp_leb_trans; [exact Hf |]. apply Hle, elem_of_cons. by left.
      * apply elem_of_cons in Ht as [-> | Ht].
        -- eapply Timestamp_leb_trans; [exact Hx |]. apply Hle, elem_of_cons. by left.
        -- apply Hle, elem_of_cons. by right.
Qed.

Lemma first_fields_single (xs : list string) :
  first_fields ((λ x, [x]) <$> xs) = Ok xs.
Proof. induction xs as [|x xs IH]; csimpl; [done | by rewrite IH]. Qed.

Lemma read_first_column_single p w header (xs : list string) :
  files w !! p = Some (header :: ((λ x, [x]) <$> xs)) →
  read_first_column p w = Ok xs.
Proof.
  intros Hp. unfold read_first_column, csv_reader. rewrite Hp. simpl.
  apply first_fields_single.
Qed.

Section Calendar.

Context (parse_date : string → option (Z * Z * Z)).

Lemma to_datetime_valid date t : to_datetime parse_date date = Ok t → valid_date t.
Proof.
  unfold to_datetime. destruct (parse_date date) as [[[y m] d]|]; [|done].
  apply Timestamp_new_valid.
Qed.

Lemma to_datetimes_Forall2 dates ts :
  Forall2 (λ date t, to_datetime parse_date date = Ok t) dates ts →
  to_datetimes parse_date dates = Ok ts.
Proof.
  induction 1 as [|date t dates ts Ht _ IH]; simpl; [done |].
  by rewrite Ht, IH.
Qed.

(** C2.  When the dates file holds a non-empty list of dates that
    pandas reads, with [min_date] the earliest and [max_date] the
    latest of them, the Calendar Expander returns the month keys
    [YYYY-MM] of a list of (year, month) pairs that starts at the month
    of [min_date], ends at the month of [max_date], steps from each
    month to the next calendar month (December to January of the next
    year), is strictly increasing, and has length
    (maxYear*12+maxMonth) - (minYear*12+minMonth) + 1. *)
Theorem generate_expected_months_range
    (dates_file : Path) (w : World) (header : list string)
    (dates : list string) (ts : list Timestamp) (min_date max_date : Timestamp) :
  files w !! dates_file = Some (header :: ((λ date, [date]) <$> dates)) →
  Forall2 (λ date t, to_datetime parse_date date = Ok t) dates ts →
  min_date ∈ ts → max_date ∈ ts →
  (∀ t, t ∈ ts → Timestamp_leb min_date t = true ∧ Timestamp_leb t max_date = true) →
  ∃ keys : list (Z * Z),
    generate_expected_months parse_date dates_file w = Ok (month_key <$> keys)
    ∧ Z.of_nat (length keys) =
        (year max_date * 12 + month max_date)
        - (year min_date * 12 + month min_date) + 1
    ∧ head keys = Some (year min_date, month min_date)
    ∧ last keys = Some (year max_date, month max_date)
    ∧ (∀ (n : nat) a b, keys !! n = Some a → keys !! S n = Some b →
         b = if a.2 =? 12 then (a.1 + 1, 1) else (a.1, a.2 + 1))
    ∧ (∀ (i j : nat) a b, (i < j)%nat → keys !! i = Some a → keys !! j = Some b →
         a.1 * 12 + a.2 < b.1 * 12 + b.2)
    ∧ Forall (λ k, 1 ≤ k.2 ≤ 12) keys.
Proof.
  intros Hfile Hts Hmin Hmax Hbounds.
  assert (Forall valid_date ts) as Hvalid.
  { clear -Hts. induction Hts as [|???? Ht]; constructor; [|done].
    by eapply to_datetime_valid. }
  destruct Hts as [|date first dates ts Hfirst Hts]; [by apply elem_of_nil in Hmin |].
  (* the source's minimum and maximum are the declared ones *)
  destruct (py_min_least ts first) as [Hmin_in Hmin_le].
  destruct (py_max_greatest ts first) as [Hmax_in Hmax_le].
  assert (py_min first ts = min_date) as Emin.
  { apply Timestamp_leb_antisym; [by apply Hmin_le | by apply Hbounds]. }
  assert (py_max first ts = max_date) as Emax.
  { apply Timestamp_leb_antisym; [by apply Hbounds | by apply Hmax_le]. }
  pose proof (proj1 (Forall_forall _ _) Hvalid _ Hmin) as Hvmin.
  pose proof (proj1 (Forall_forall _ _) Hvalid _ Hmax) as Hvmax.
  assert (month_index (year min_date) (month min_date)
          ≤ month_index (year max_date) (month max_date)) as Hidx.
  { destruct (Hbounds _ Hmax) as [Hle _].
    destruct Hvmin as [Hm1 Hd1], Hvmax as [Hm2 Hd2].
    revert Hle. unfold Timestamp_leb, Timestamp_ltb, month_index.
    rewrite negb_true_iff. intros Hle. zbool; lia. }
  set (n := Z.to_nat (month_index (year max_date) (month max_date)
                      - month_index (year min_date) (month min_date) + 1)).
  set (k0 := (year min_date, month min_date)).
  exists (month_range k0 n).
  assert (1 ≤ k0.2 ≤ 12) as Hk0 by apply Hvmin.
  split_and!.
  - unfold generate_expected_months.
    rewrite (read_first_column_single _ _ _ _ Hfile). simpl.
    rewrite Hfirst. simpl.
    rewrite (to_datetimes_Forall2 _ _ Hts). simpl.
    rewrite Emin, Emax.
    rewrite Timestamp_new_first by apply Hvmin. simpl.
    rewrite (month_loop_range n); [done | apply Hvmin | done |]. lia.
  - rewrite length_month_range. unfold n, month_index in *. lia.
  - destruct n eqn:Hn; [unfold n, month_index in *; lia | done].
  - rewrite last_lookup, length_month_range.
    destruct (lookup_lt_is_Some_2 (month_range k0 n) (pred n)) as [a Ha].
    { rewrite length_month_range. unfold n, month_index in *. lia. }
    rewrite Ha. f_equal.
    destruct (month_range_lookup _ _ _ _ Hk0 Ha) as [Hva Hia].
    apply month_index_inj; [done | apply Hvmax |]. simpl.
    unfold k0 in Hia. simpl in Hia. unfold n, month_index in *. lia.
  - intros i a b Ha Hb. by apply (month_range_succ _ _ _ _ _ Ha Hb).
  - intros i j a b Hij Ha Hb.
    destruct (month_range_lookup _ _ _ _ Hk0 Ha) as [_ Hia].
    destruct (month_range_lookup _ _ _ _ Hk0 Hb) as [_ Hib].
    unfold month_index in *. lia.
  - apply Forall_forall. intros a Ha.
    apply list_elem_of_lookup in Ha as [i Ha].
    by destruct (month_range_lookup _ _ _ _ Hk0 Ha).
Qed.

(** C8.  When the dates file has no row under its header, the Calendar
    Expander returns the empty list, without raising.  With the empty
    list, the Gap Detector writes no missing entry for any pair: for a
    pair whose stats are absent or readable it returns its output file,
    which holds the header only; for a pair whose stats file cannot be
    read it returns nothing and leaves the files as they are. *)
Theorem empty_calendar_no_missing_entries
    (dates_file : Path) (w : World) (header : list string) :
  files w !! dates_file = Some [header] →
  generate_expected_months parse_date dates_file w = Ok []
  ∧ ∀ currency_pair : string,
      let r := identify_missing_data_for_pair currency_pair [] w in
      (files w !! stats_file currency_pair = None ∨ stats_readable w currency_pair →
         r.2 = Some (missing_file currency_pair)
         ∧ files r.1 !! missing_file currency_pair = Some [missing_header])
      ∧ (r.2 = None → files r.1 = files w).
Proof.
  intros Hfile. split.
  - unfold generate_expected_months, read_first_column, csv_reader.
    rewrite Hfile. reflexivity.
  - intros currency_pair r. subst r. split.
    + intros [Habs | (hd & stats & i & Hstats & Hcol)].
      * rewrite (identify_absent _ _ _ Habs). simpl.
        by rewrite lookup_insert_eq.
      * rewrite (identify_present _ _ _ _ _ _ Hstats Hcol). simpl.
        by rewrite lookup_insert_eq.
    + unfold identify_missing_data_for_pair.
      destruct (negb (path_exists (stats_file currency_pair) w)); [done |].
      case_match; [done | reflexivity].
Qed.

End Calendar.

Lemma generate_expected_months_range_witness :
  generate_expected_months parse_iso_date (data_file "dates.csv") world_three_dates
    = Ok ["2023-11"; "2023-12"; "2024-01"; "2024-02"]
  ∧ ∃ keys : list (Z * Z),
      generate_expected_months parse_iso_date (data_file "dates.csv") world_three_dates
        = Ok (month_key <$> keys)
      ∧ Z.of_nat (length keys) = 4
      ∧ head keys = Some (2023, 11)
      ∧ last keys = Some (2024, 2).
Proof.
  split; [vm_compute; reflexivity |].
  destruct (generate_expected_months_range parse_iso_date
              (data_file "dates.csv") world_three_dates dates_header
              ["2023-11-15"; "2023-12-01"; "2024-02-03"]
              [mkTimestamp 2023 11 15; mkTimestamp 2023 12 1; mkTimestamp 2024 2 3]
              (mkTimestamp 2023 11 15) (mkTimestamp 2024 2 3))
    as (keys & Hgen & Hlen & Hhead & Hlast & _).
  - vm_compute. reflexivity.
  - repeat constructor.
  - apply elem_of_cons. by left.
  - do 2 (apply elem_of_cons; right). apply elem_of_cons. by left.
  - apply Forall_forall. repeat constructor.
  - exists keys. split_and!; [exact Hgen | exact Hlen | exact Hhead | exact Hlast].
Defined.

Lemma empty_calendar_no_missing_entries_witness :
  files world_no_dates !! data_file "dates.csv" = Some [dates_header]
  ∧ generate_expected_months parse_iso_date (data_file "dates.csv") world_no_dates = Ok []
  ∧ (identify_missing_data_for_pair "EUR_USD" [] world_no_dates).2
      = Some (missing_file "EUR_USD")
  ∧ files (identify_missing_data_for_pair "EUR_USD" [] world_no_dates).1
      !! missing_file "EUR_USD" = Some [missing_header].
Proof.
  assert (files world_no_dates !! data_file "dates.csv" = Some [dates_header]) as Hfile
    by (vm_compute; reflexivity).
  destruct (empty_calendar_no_missing_entries parse_iso_date
              (data_file "dates.csv") world_no_dates dates_header Hfile)
    as [Hgen Hpairs].
  destruct (Hpairs "EUR_USD") as [Hok _].
  destruct Hok as [Hret Hout]; [left; vm_compute; reflexivity |].
  split_and!; [exact Hfile | exact Hgen | exact Hret | exact Hout].
Defined.

(** ** Gap Aggregator *)

#[global] Instance entry_le_trans : Transitive entry_le.
Proof.
  intros [a1 a2] [b1 b2] [c1 c2]. unfold entry_le. simpl.
  intros [[Hne1 H1] | [-> H1]] [[Hne2 H2] | [-> H2]].
  - left. split; [| by etrans].
    intros ->. apply Hne1. by apply (anti_symm String.le).
  - left. done.
  - left. done.
  - right. split; [done | by etrans].
Qed.

#[global] Instance entry_le_total : Total entry_le.
Proof.
  intros [a1 a2] [b1 b2]. unfold entry_le. simpl.
  destruct (decide (a1 = b1)) as [-> | Hne].
  - destruct (total String.le a2 b2); [left | right]; right; done.
  - destruct (total String.le a1 b1); [left | right]; left; split; done.
Qed.

#[global] Instance entry_le_antisym : AntiSymm (=) entry_le.
Proof.
  intros [a1 a2] [b1 b2]. unfold entry_le. simpl.
  intros [[Hne1 H1] | [-> H1]] [[Hne2 H2] | [E H2]]; try done.
  - exfalso. apply Hne1. by apply (anti_symm String.le).
  - f_equal. by apply (anti_symm String.le).
Qed.

Lemma StronglySorted_lookup_lt {A} (R : relation A) (l : list A) :
  StronglySorted R l →
  ∀ (i j : nat) a b, (i < j)%nat → l !! i = Some a → l !! j = Some b → R a b.
Proof.
  induction 1 as [|x l Hs IH Hx]; intros i j a b Hij Ha Hb; [done |].
  destruct j as [|j]; [lia |]. simpl in Hb. destruct i as [|i]; simpl in Ha.
  - injection Ha as ->.
    apply (proj1 (Forall_forall _ _) Hx). by eapply list_elem_of_lookup_2.
  - apply (IH i j); [lia | done | done].
Qed.

Lemma sorted_entries_Permutation xs : sorted_entries xs ≡ₚ xs.
Proof. apply merge_sort_Permutation. Qed.

Lemma sorted_entries_sorted xs : StronglySorted entry_le (sorted_entries xs).
Proof. apply StronglySorted_merge_sort; apply _. Qed.

Lemma sorted_entries_perm_eq xs ys :
  xs ≡ₚ ys → sorted_entries xs = sorted_entries ys.
Proof.
  intros Hp. apply (Sorted_unique entry_le).
  - apply Sorted_merge_sort, _.
  - apply Sorted_merge_sort, _.
  - by rewrite !sorted_entries_Permutation.
Qed.

Lemma omap_row_entry (es : list (string * string)) :
  omap row_entry (entry_row <$> es) = es.
Proof.
  induction es as [|[pair month] es IH]; csimpl; [done | by rewrite IH].
Qed.

Lemma file_entries_holds w p es : holds_entries w p es → file_entries w p = es.
Proof.
  intros [header Hp]. unfold file_entries. rewrite Hp. apply omap_row_entry.
Qed.

(** The loop keeps the files, and appends to the list the entries of
    the files in order. *)
Lemma collect_missing_data_spec missing_data_files : ∀ all_missing_data w,
  files (collect_missing_data missing_data_files all_missing_data w).1 = files w
  ∧ (collect_missing_data missing_data_files all_missing_data w).2
    = all_missing_data ++ mjoin (file_entries w <$> missing_data_files).
Proof.
  induction missing_data_files as [|p ps IH]; intros acc w; csimpl.
  - by rewrite app_nil_r.
  - unfold csv_reader, file_entries at 1.
    destruct (files w !! p) as [[|header body]|] eqn:Hp; csimpl;
      match goal with
      | |- context [collect_missing_data ps ?a ?w1] =>
          destruct (IH a w1) as [Hf He]; rewrite Hf, He
      end; rewrite ?app_assoc; done.
Qed.

Lemma aggregate_missing_data_ok missing_data_files pairs_file w pairs :
  read_first_column pairs_file w = Ok pairs →
  ∃ w', aggregate_missing_data missing_data_files pairs_file w = Ok (w', aggregate_file)
    ∧ files w' !! aggregate_file
      = Some (missing_header ::
                (entry_row <$> sorted_entries
                                 (mjoin (file_entries w <$> missing_data_files)))).
Proof.
  intros Hpairs. unfold aggregate_missing_data, read_known_pairs.
  rewrite Hpairs. csimpl.
  destruct (collect_missing_data_spec missing_data_files [] w) as [Hf He].
  eexists. split; [reflexivity |]. simpl.
  rewrite lookup_insert_eq, He. done.
Qed.

Lemma aggregate_missing_data_inv missing_data_files pairs_file w w' out :
  aggregate_missing_data missing_data_files pairs_file w = Ok (w', out) →
  out = aggregate_file
  ∧ files w' !! aggregate_file
    = Some (missing_header ::
              (entry_row <$> sorted_entries
                               (mjoin (file_entries w <$> missing_data_files)))).
Proof.
  intros Hagg.
  destruct (read_first_column pairs_file w) as [pairs|e] eqn:Hpairs.
  - destruct (aggregate_missing_data_ok missing_data_files _ _ _ Hpairs)
      as (w'' & Hagg' & Hfile).
    rewrite Hagg in Hagg'. by injection Hagg' as -> ->.
  - unfold aggregate_missing_data, read_known_pairs in Hagg.
    rewrite Hpairs in Hagg. done.
Qed.

Lemma mjoin_file_entries w missing_data_files ess :
  Forall2 (holds_entries w) missing_data_files ess →
  mjoin (file_entries w <$> missing_data_files) = mjoin ess.
Proof.
  induction 1 as [|p es ps ess Hp _ IH]; csimpl; [done |].
  by rewrite (file_entries_holds _ _ _ Hp), IH.
Qed.

(** C4.  When the pairs file can be read and each input file holds a
    sequence of missing entries, the Gap Aggregator returns its output
    file, whose rows under the header are a rearrangement of all the
    input entries put together (the same entries with the same
    multiplicities), in ascending order: of two rows, the one with the
    smaller pair string comes first, and among rows of the same pair the
    one with the smaller month string. *)
Theorem aggregate_missing_data_sorted_concatenation
    (missing_data_files : list Path) (pairs_file : Path) (w : World)
    (pairs_head : list string) (pairs : list string)
    (ess : list (list (string * string))) :
  files w !! pairs_file = Some (pairs_head :: ((λ pair, [pair]) <$> pairs)) →
  Forall2 (holds_entries w) missing_data_files ess →
  ∃ (w' : World) (out : list (string * string)),
    aggregate_missing_data missing_data_files pairs_file w = Ok (w', aggregate_file)
    ∧ files w' !! aggregate_file = Some (missing_header :: (entry_row <$> out))
    ∧ out ≡ₚ mjoin ess
    ∧ StronglySorted entry_le out
    ∧ (∀ (i j : nat) a b, (i < j)%nat → out !! i = Some a → out !! j = Some b →
         (a.1 ≠ b.1 ∧ String.le a.1 b.1) ∨ (a.1 = b.1 ∧ String.le a.2 b.2)).
Proof.
  intros Hpairs Hess.
  destruct (aggregate_missing_data_ok missing_data_files pairs_file w pairs)
    as (w' & Hagg & Hfile).
  { by eapply read_first_column_single. }
  rewrite (mjoin_file_entries _ _ _ Hess) in Hfile.
  exists w', (sorted_entries (mjoin ess)).
  split_and!; [done | done | apply sorted_entries_Permutation
              | apply sorted_entries_sorted |].
  intros i j a b Hij Ha Hb.
  exact (StronglySorted_lookup_lt _ _ (sorted_entries_sorted (mjoin ess))
           i j a b Hij Ha Hb).
Qed.

Lemma aggregate_missing_data_sorted_concatenation_witness :
  aggregate_missing_data [missing_file "EUR_USD"; missing_file "EUR_SEK"]
      (data_file "pairs.csv") world_gaps
    = Ok (mkWorld
            (<[ aggregate_file :=
                  [ missing_header; ["EUR_SEK"; "2024-01"]; ["EUR_SEK"; "2024-02"];
                    ["EUR_SEK"; "2024-03"]; ["EUR_USD"; "2024-02"] ] ]>
               (files world_gaps))
            ["Saved aggregate missing data to data/missing_data.csv"],
          aggregate_file)
  ∧ ∃ (w' : World) (out : list (string * string)),
      aggregate_missing_data [missing_file "EUR_USD"; missing_file "EUR_SEK"]
          (data_file "pairs.csv") world_gaps = Ok (w', aggregate_file)
      ∧ files w' !! aggregate_file = Some (missing_header :: (entry_row <$> out))
      ∧ out ≡ₚ [ ("EUR_USD", "2024-02"); ("EUR_SEK", "2024-01");
                 ("EUR_SEK", "2024-02"); ("EUR_SEK", "2024-03") ]
      ∧ StronglySorted entry_le out.
Proof.
  split; [vm_compute; reflexivity |].
  destruct (aggregate_missing_data_sorted_concatenation
              [missing_file "EUR_USD"; missing_file "EUR_SEK"]
              (data_file "pairs.csv") world_gaps pairs_header ["EUR_SEK"; "EUR_USD"]
              [ [("EUR_USD", "2024-02")];
                [("EUR_SEK", "2024-01"); ("EUR_SEK", "2024-02"); ("EUR_SEK", "2024-03")] ])
    as (w' & out & Hagg & Hfile & Hperm & Hsorted & _).
  - vm_compute. reflexivity.
  - repeat constructor; exists missing_header; vm_compute; reflexivity.
  - exists w', out. split_and!; [exact Hagg | exact Hfile | exact Hperm | exact Hsorted].
Defined.

Lemma shuffled_mjoin ess ess' : shuffled ess ess' → mjoin ess ≡ₚ mjoin ess'.
Proof.
  intros (mid & Hperm & Hmid). rewrite Hperm. clear Hperm.
  induction Hmid as [|es es' mid ess' Hes _ IH]; csimpl; [done |].
  by rewrite Hes, IH.
Qed.

(** C7.  Two collections of per-pair missing-entry sequences, the second
    a reordering of the first (its sequences permuted, and the entries
    inside each sequence permuted), give the same aggregate report: the
    Gap Aggregator succeeds on both and writes the same rows. *)
Theorem aggregate_missing_data_order_independent
    (files1 files2 : list Path) (pairs_file : Path) (w1 w2 : World)
    (head1 head2 : list string) (pairs1 pairs2 : list string)
    (ess1 ess2 : list (list (string * string))) :
  files w1 !! pairs_file = Some (head1 :: ((λ pair, [pair]) <$> pairs1)) →
  files w2 !! pairs_file = Some (head2 :: ((λ pair, [pair]) <$> pairs2)) →
  Forall2 (holds_entries w1) files1 ess1 →
  Forall2 (holds_entries w2) files2 ess2 →
  shuffled ess1 ess2 →
  ∃ (w1' w2' : World) (out : list (string * string)),
    aggregate_missing_data files1 pairs_file w1 = Ok (w1', aggregate_file)
    ∧ aggregate_missing_data files2 pairs_file w2 = Ok (w2', aggregate_file)
    ∧ files w1' !! aggregate_file = Some (missing_header :: (entry_row <$> out))
    ∧ files w2' !! aggregate_file = Some (missing_header :: (entry_row <$> out)).
Proof.
  intros Hp1 Hp2 Hess1 Hess2 Hsh.
  destruct (aggregate_missing_data_ok files1 pairs_file w1 pairs1)
    as (w1' & Hagg1 & Hfile1); [by eapply read_first_column_single |].
  destruct (aggregate_missing_data_ok files2 pairs_file w2 pairs2)
    as (w2' & Hagg2 & Hfile2); [by eapply read_first_column_single |].
  rewrite (mjoin_file_entries _ _ _ Hess1) in Hfile1.
  rewrite (mjoin_file_entries _ _ _ Hess2) in Hfile2.
  rewrite <- (sorted_entries_perm_eq _ _ (shuffled_mjoin _ _ Hsh)) in Hfile2.
  by exists w1', w2', (sorted_entries (mjoin ess1)).
Qed.

Lemma aggregate_missing_data_order_independent_witness :
  ∃ (w1' w2' : World) (out : list (string * string)),
    aggregate_missing_data [missing_file "EUR_USD"; missing_file "EUR_SEK"]
        (data_file "pairs.csv") world_gaps = Ok (w1', aggregate_file)
    ∧ aggregate_missing_data [missing_file "EUR_SEK"; missing_file "EUR_USD"]
        (data_file "pairs.csv") world_gaps_shuffled = Ok (w2', aggregate_file)
    ∧ files w1' !! aggregate_file = Some (missing_header :: (entry_row <$> out))
    ∧ files w2' !! aggregate_file = Some (missing_header :: (entry_row <$> out)).
Proof.
  apply (aggregate_missing_data_order_independent
           [missing_file "EUR_USD"; missing_file "EUR_SEK"]
           [missing_file "EUR_SEK"; missing_file "EUR_USD"]
           (data_file "pairs.csv") world_gaps world_gaps_shuffled
           pairs_header pairs_header ["EUR_SEK"; "EUR_USD"] ["EUR_SEK"; "EUR_USD"]
           [ [("EUR_USD", "2024-02")];
             [("EUR_SEK", "2024-01"); ("EUR_SEK", "2024-02"); ("EUR_SEK", "2024-03")] ]
           [ [("EUR_SEK", "2024-03"); ("EUR_SEK", "2024-01"); ("EUR_SEK", "2024-02")];
             [("EUR_USD", "2024-02")] ]).
  - vm_compute. reflexivity.
  - vm_compute. reflexivity.
  - repeat constructor; exists missing_header; vm_compute; reflexivity.
  - repeat constructor; exists missing_header; vm_compute; reflexivity.
  - exists [ [("EUR_SEK", "2024-01"); ("EUR_SEK", "2024-02"); ("EUR_SEK", "2024-03")];
             [("EUR_USD", "2024-02")] ].
    split.
    + apply Permutation_swap.
    + constructor; [| by repeat constructor].
      etrans; [| apply Permutation_swap].
      apply Permutation_skip, Permutation_swap.
Defined.

(** The known pairs do not filter the aggregate: with [EUR_USD] as the
    only known pair and an input file that holds an entry for [EUR_GBP],
    the aggregate report has the [EUR_GBP] row. *)
Lemma aggregate_missing_data_unknown_pair :
  read_known_pairs (data_file "pairs.csv") world_unknown_pair = Ok known_usd_only
  ∧ ("EUR_GBP" ∉ known_usd_only)
  ∧ match aggregate_missing_data [missing_file "EUR_GBP"] (data_file "pairs.csv") world_unknown_pair with
    | Ok r => files r.1 !! r.2 = Some [ missing_header; ["EUR_GBP"; "2024-01"] ]
    | Raise _ => False
    end.
Proof.
  split_and!.
  - vm_compute. reflexivity.
  - by intros ?%elem_of_singleton.
  - vm_compute. reflexivity.
Qed.

(** C3, as amended.  When the Gap Aggregator returns, the rows under the
    header of its report are entries, and an entry is in the report
    exactly when it is in one of the input files: no entry is made up.
    So if every entry of every input file is for a known pair, every
    entry of the report is for a known pair. *)
Theorem aggregate_missing_data_entries_from_inputs
    (missing_data_files : list Path) (pairs_file : Path) (w w' : World) (out : Path) :
  aggregate_missing_data missing_data_files pairs_file w = Ok (w', out) →
  ∃ entries : list (string * string),
    files w' !! out = Some (missing_header :: (entry_row <$> entries))
    ∧ (∀ e, e ∈ entries ↔
         ∃ file_path, file_path ∈ missing_data_files ∧ e ∈ file_entries w file_path)
    ∧ (∀ known : gset string,
         read_known_pairs pairs_file w = Ok known →
         (∀ file_path e, file_path ∈ missing_data_files →
            e ∈ file_entries w file_path → e.1 ∈ known) →
         ∀ e, e ∈ entries → e.1 ∈ known).
Proof.
  intros Hagg. apply aggregate_missing_data_inv in Hagg as [-> Hfile].
  exists (sorted_entries (mjoin (file_entries w <$> missing_data_files))).
  assert (∀ e, e ∈ sorted_entries (mjoin (file_entries w <$> missing_data_files)) ↔
            ∃ file_path, file_path ∈ missing_data_files ∧ e ∈ file_entries w file_path)
    as Hin.
  { intros e. rewrite sorted_entries_Permutation, list_elem_of_join. split.
    - intros (l & He & Hl). apply list_elem_of_fmap in Hl as (p & -> & Hp). eauto.
    - intros (p & Hp & He). exists (file_entries w p). split; [done |].
      apply list_elem_of_fmap. eauto. }
  split_and!; [done | done |].
  intros known _ Hknown e He. apply Hin in He as (p & Hp & He). eauto.
Qed.

Lemma aggregate_missing_data_entries_from_inputs_witness :
  ∃ entries : list (string * string),
    files (mkWorld
             (<[ aggregate_file :=
                   [ missing_header; ["EUR_SEK"; "2024-01"]; ["EUR_SEK"; "2024-02"];
                     ["EUR_SEK"; "2024-03"]; ["EUR_USD"; "2024-02"] ] ]>
                (files world_gaps))
             ["Saved aggregate missing data to data/missing_data.csv"])
      !! aggregate_file = Some (missing_header :: (entry_row <$> entries))
    ∧ ∀ e, e ∈ entries ↔
        ∃ file_path,
          file_path ∈ [missing_file "EUR_USD"; missing_file "EUR_SEK"]
          ∧ e ∈ file_entries world_gaps file_path.
Proof.
  destruct (aggregate_missing_data_entries_from_inputs
              [missing_file "EUR_USD"; missing_file "EUR_SEK"]
              (data_file "pairs.csv") world_gaps
              (mkWorld
                 (<[ aggregate_file :=
                       [ missing_header; ["EUR_SEK"; "2024-01"]; ["EUR_SEK"; "2024-02"];
                         ["EUR_SEK"; "2024-03"]; ["EUR_USD"; "2024-02"] ] ]>
                    (files world_gaps))
                 ["Saved aggregate missing data to data/missing_data.csv"])
              aggregate_file)
    as (entries & Hfile & Hin & _).
  - vm_compute. reflexivity.
  - exists entries. split; [exact Hfile | exact Hin].
Defined.

(** ** Pair/Date Collector *)

Lemma append_nil_l (t : string) : "" +:+ t = t.
Proof. reflexivity. Qed.

Lemma append_cons c (s t : string) : String c s +:+ t = String c (s +:+ t).
Proof. reflexivity. Qed.

Lemma prefix_cons a s1 b s2 :
  String.prefix (String a s1) (String b s2)
  = if Ascii.ascii_dec a b then String.prefix s1 s2 else false.
Proof. reflexivity. Qed.

Lemma prefix_nil_l s : String.prefix "" s = true.
Proof. by destruct s. Qed.

Ltac prefix_step :=
  rewrite ?append_cons, ?append_nil_l, ?prefix_cons in *;
  match goal with
  | H : context [Ascii.ascii_dec ?a ?b] |- _ =>
      destruct (Ascii.ascii_dec a b) as [<- | ?]; [| done]
  end.

(** The suffix [.csv] put behind a non-empty text does not create an
    occurrence of [.csv] at its start. *)
Lemma prefix_csv_append (s : string) :
  s ≠ "" → String.prefix ".csv" s = false →
  String.prefix ".csv" (s +:+ ".csv") = false.
Proof.
  intros Hne Hp.
  destruct s as [|c1 s]; [done |]. prefix_step.
  destruct s as [|c2 s]; [by vm_compute |]. prefix_step.
  destruct s as [|c3 s]; [by vm_compute |]. prefix_step.
  destruct s as [|c4 s]; [by vm_compute |]. prefix_step.
  by rewrite prefix_nil_l in Hp.
Qed.

Lemma replace_csv_suffix (stem : string) :
  occurs ".csv" stem = false → replace ".csv" "" (stem +:+ ".csv") = stem.
Proof.
  unfold replace. induction stem as [|c stem IH]; intros Hocc; [by vm_compute |].
  simpl in Hocc. apply orb_false_iff in Hocc as [Hp Hocc].
  pose proof (prefix_csv_append (String c stem)) as Hpre.
  rewrite append_cons in *.
  cbn [replace_from]. rewrite Hpre by done. by rewrite IH.
Qed.

Lemma collect_currency_pairs_loop_spec input_files : ∀ all_currency_pairs,
  collect_currency_pairs_loop input_files all_currency_pairs
  = all_currency_pairs
    ∪ list_to_set ((λ file_path, replace ".csv" "" (name file_path)) <$> input_files).
Proof.
  induction input_files as [|p ps IH]; intros acc.
  - simpl. by rewrite union_empty_r_L.
  - rewrite fmap_cons, list_to_set_cons. simpl. rewrite IH.
    unfold collect_currency_pairs. by rewrite (assoc_L (∪)).
Qed.

Lemma read_known_pairs_single p w header (pairs : list string) :
  files w !! p = Some (header :: ((λ pair, [pair]) <$> pairs)) →
  read_known_pairs p w = Ok (list_to_set pairs).
Proof.
  intros Hp. unfold read_known_pairs.
  by rewrite (read_first_column_single _ _ _ _ Hp).
Qed.

Lemma collect_currency_pairs_flow_spec input_files w :
  collect_currency_pairs_flow input_files w
  = (print "Saved currency pairs to data/pairs.csv"
       (write_rows (data_file "pairs.csv")
          (pairs_header :: ((λ pair, [pair]) <$> pairs_of_files input_files)) w),
     data_file "pairs.csv").
Proof.
  unfold collect_currency_pairs_flow, write_currency_pairs_to_csv, pairs_of_files.
  by rewrite collect_currency_pairs_loop_spec, union_empty_l_L.
Qed.

(** C10.  For an input file named [stem.csv], where [.csv] does not occur
    inside [stem], the Pair/Date Collector takes [stem] as the pair; it
    does so from the name alone, the world (the contents of the files)
    is not an input of [collect_currency_pairs].  Whatever the files
    hold, also when the file has no data row, the pairs report written by
    the flow has the row of that pair, the report is the same in every
    world, and the known pairs the Gap Aggregator reads from it contain
    the pair. *)
Theorem collect_currency_pairs_from_file_name
    (input_files : list Path) (file_path : Path) (stem : string) (w : World) :
  file_path ∈ input_files →
  name file_path = stem +:+ ".csv" →
  occurs ".csv" stem = false →
  let r := collect_currency_pairs_flow input_files w in
  collect_currency_pairs file_path = {[ stem ]}
  ∧ r.2 = data_file "pairs.csv"
  ∧ (∃ rows, files r.1 !! r.2 = Some (pairs_header :: rows) ∧ [stem] ∈ rows)
  ∧ (∀ w2 : World,
       files (collect_currency_pairs_flow input_files w2).1 !! data_file "pairs.csv"
       = files r.1 !! data_file "pairs.csv")
  ∧ (∃ known, read_known_pairs r.2 r.1 = Ok known ∧ stem ∈ known).
Proof.
  intros Hin Hname Hocc r.
  assert (replace ".csv" "" (name file_path) = stem) as Hpair.
  { rewrite Hname. by apply replace_csv_suffix. }
  assert (collect_currency_pairs file_path = {[ stem ]}) as Hcollect.
  { unfold collect_currency_pairs. by rewrite Hpair. }
  assert (stem ∈ pairs_of_files input_files) as Hstem.
  { unfold pairs_of_files, sorted_strings. rewrite merge_sort_Permutation.
    apply elem_of_elements, elem_of_list_to_set, list_elem_of_fmap.
    exists file_path. done. }
  subst r. rewrite (collect_currency_pairs_flow_spec input_files w).
  split; [exact Hcollect |]. split; [done |]. split; [| split].
  - eexists. simpl. rewrite lookup_insert_eq. split; [done |].
    apply list_elem_of_fmap. by exists stem.
  - intros w2. rewrite collect_currency_pairs_flow_spec. simpl.
    by rewrite !lookup_insert_eq.
  - exists (list_to_set (pairs_of_files input_files)). split.
    + apply (read_known_pairs_single _ _ pairs_header). simpl.
      by rewrite lookup_insert_eq.
    + by apply elem_of_list_to_set.
Qed.

Lemma collect_currency_pairs_from_file_name_witness :
  collect_currency_pairs (data_file "EUR_USD.csv") = {[ "EUR_USD" ]}
  ∧ files (collect_currency_pairs_flow [data_file "EUR_USD.csv"] world_header_only).1
      !! data_file "pairs.csv" = Some [ pairs_header; ["EUR_USD"] ]
  ∧ ∃ known,
      read_known_pairs
        (collect_currency_pairs_flow [data_file "EUR_USD.csv"] world_header_only).2
        (collect_currency_pairs_flow [data_file "EUR_USD.csv"] world_header_only).1
      = Ok known
      ∧ "EUR_USD" ∈ known.
Proof.
  destruct (collect_currency_pairs_from_file_name
              [data_file "EUR_USD.csv"] (data_file "EUR_USD.csv") "EUR_USD" world_header_only)
    as (Hpair & _ & _ & _ & Hknown).
  - apply elem_of_cons. by left.
  - reflexivity.
  - vm_compute. reflexivity.
  - split_and!; [exact Hpair | vm_compute; reflexivity | exact Hknown].
Defined.

(** ** Monthly Aggregator: the failure path *)

Section MonthlyStats.

Context (monthly_table : DataFrame → result (list (list string))).


End MonthlyStats.


(** * Further properties of the pipeline *)

(** ** File names *)

Lemma list_ascii_of_string_app (s t : string) :
  String.list_ascii_of_string (s +:+ t)
  = String.list_ascii_of_string s ++ String.list_ascii_of_string t.
Proof.
  induction s as [|c s IH]; [done |].
  rewrite append_cons. simpl. by rewrite IH.
Qed.

Lemma list_ascii_of_string_inj (s t : string) :
  String.list_ascii_of_string s = String.list_ascii_of_string t → s = t.
Proof.
  intros H. rewrite <- (String.string_of_list_ascii_of_string s),
    <- (String.string_of_list_ascii_of_string t). by rewrite H.
Qed.

Lemma string_app_inv_tail (s t suffix : string) :
  s +:+ suffix = t +:+ suffix → s = t.
Proof.
  intros H. apply list_ascii_of_string_inj.
  apply (f_equal String.list_ascii_of_string) in H.
  rewrite !list_ascii_of_string_app in H. by apply app_inv_tail in H.
Qed.

Lemma string_length_app (s t : string) :
  String.length (s +:+ t) = (String.length s + String.length t)%nat.
Proof.
  induction s as [|c s IH]; [done |]. rewrite append_cons. simpl. by rewrite IH.
Qed.


Lemma stats_file_inj p q : stats_file p = stats_file q → p = q.
Proof. intros [= H]. by apply string_app_inv_tail in H. Qed.

(** The two per-pair file names end differently, whatever the pairs. *)
Lemma stats_file_ne_missing_file p q : stats_file p ≠ missing_file q.
Proof.
  intros [= H]. apply (f_equal String.list_ascii_of_string) in H.
  rewrite !list_ascii_of_string_app in H.
  apply (f_equal reverse) in H. rewrite !reverse_app in H.
  vm_compute reverse in H.
  cbn in H. discriminate H.
Qed.

Lemma data_file_ne_suffixed (fixed pair suffix : string) :
  (String.length fixed < String.length suffix)%nat →
  data_file fixed ≠ data_file (pair +:+ suffix).
Proof.
  intros Hlen [= H]. apply (f_equal String.length) in H.
  rewrite string_length_app in H. lia.
Qed.




Lemma dates_file_ne_missing_file p : data_file "dates.csv" ≠ missing_file p.
Proof. apply data_file_ne_suffixed. vm_compute. lia. Qed.

Lemma aggregate_file_ne_missing_file p : aggregate_file ≠ missing_file p.
Proof. apply data_file_ne_suffixed. vm_compute. lia. Qed.

Lemma aggregate_file_ne_stats_file p : aggregate_file ≠ stats_file p.
Proof. apply data_file_ne_suffixed. vm_compute. lia. Qed.

(** ** Gap Detector: the unreadable stats file, and the files it leaves alone *)

Lemma identify_unreadable currency_pair expected_months w rows :
  files w !! stats_file currency_pair = Some rows →
  ¬ stats_readable w currency_pair →
  ∃ e, identify_missing_data_for_pair currency_pair expected_months w
       = (print ("Error identifying missing data for " +:+ currency_pair +:+ ": "
                   +:+ exn_str e) w, None)
       ∧ (e = EmptyDataError ∨ e = KeyError "month_str").
Proof.
  intros Hfile Hnot. unfold identify_missing_data_for_pair.
  assert (path_exists (stats_file currency_pair) w = true) as ->.
  { apply path_exists_true. rewrite Hfile. eauto. }
  unfold read_csv. rewrite Hfile. destruct rows as [|header stats]; simpl.
  - exists EmptyDataError. auto.
  - unfold get_column. simpl.
    destruct (column_index "month_str" header) as [i|] eqn:Hcol.
    + exfalso. apply Hnot. by exists header, stats, i.
    + exists (KeyError "month_str"). auto.
Qed.


Lemma filter_not_in_set (present expected : list string) :
  filter (λ month, month ∉ (list_to_set present : gset string)) expected
  = filter (λ month, month ∉ present) expected.
Proof. apply list_filter_iff. intros month. by rewrite elem_of_list_to_set. Qed.

(** The Gap Detector in terms of [pair_gaps]. *)
Lemma identify_pair_gaps currency_pair expected_months w :
  (identify_missing_data_for_pair currency_pair expected_months w).2
  = (λ _, missing_file currency_pair) <$> pair_gaps w expected_months currency_pair
  ∧ files (identify_missing_data_for_pair currency_pair expected_months w).1
    = match pair_gaps w expected_months currency_pair with
      | Some months => <[missing_file currency_pair := missing_rows currency_pair months]> (files w)
      | None => files w
      end.
Proof.
  unfold pair_gaps.
  destruct (files w !! stats_file currency_pair) as [[|header stats]|] eqn:Hfile.
  - destruct (identify_unreadable currency_pair expected_months w [] Hfile)
      as (e & -> & _); [| done].
    intros (? & ? & ? & ? & ?). congruence.
  - destruct (column_index "month_str" header) as [i|] eqn:Hcol.
    + rewrite (identify_present _ _ _ _ _ _ Hfile Hcol). simpl.
      by rewrite filter_not_in_set.
    + destruct (identify_unreadable currency_pair expected_months w _ Hfile)
        as (e & -> & _); [| done].
      intros (? & ? & ? & ? & ?). congruence.
  - by rewrite (identify_absent _ _ _ Hfile).
Qed.

(** X2.  The Gap Detector changes no file but the pair's missing-data
    file; in particular it leaves every monthly stats file as it is. *)
Theorem identify_missing_data_for_pair_frame
    (currency_pair : string) (expected_months : list string) (w : World) :
  let r := identify_missing_data_for_pair currency_pair expected_months w in
  (∀ path, path ≠ missing_file currency_pair → files r.1 !! path = files w !! path)
  ∧ (∀ other_pair, files r.1 !! stats_file other_pair = files w !! stats_file other_pair).
Proof.
  intros r. subst r.
  destruct (identify_pair_gaps currency_pair expected_months w) as [_ Hfiles].
  assert (∀ path, path ≠ missing_file currency_pair →
            files (identify_missing_data_for_pair currency_pair expected_months w).1 !! path
            = files w !! path) as Hframe.
  { intros path Hne. rewrite Hfiles.
    destruct (pair_gaps w expected_months currency_pair); [| done].
    by rewrite lookup_insert_ne. }
  split; [done |]. intros other_pair. apply Hframe, stats_file_ne_missing_file.
Qed.

Lemma identify_missing_data_for_pair_frame_witness :
  files (identify_missing_data_for_pair "EUR_USD" ["2024-01"; "2024-02"; "2024-03"]
           world_two_months).1 !! stats_file "EUR_USD"
  = files world_two_months !! stats_file "EUR_USD".
Proof.
  destruct (identify_missing_data_for_pair_frame
              "EUR_USD" ["2024-01"; "2024-02"; "2024-03"] world_two_months)
    as [Hframe _].
  apply Hframe. apply stats_file_ne_missing_file.
Defined.







Section GapFlow.

Context (parse_date : string → option (Z * Z * Z)).





End GapFlow.

(** ** Gap Aggregator: unreadable inputs, the pairs file, running again *)

Lemma collect_missing_data_stdout missing_data_files : ∀ all_missing_data w,
  stdout (collect_missing_data missing_data_files all_missing_data w).1
  = stdout w ++ read_error_lines w missing_data_files.
Proof.
  induction missing_data_files as [|p ps IH]; intros acc w; simpl.
  - by rewrite app_nil_r.
  - unfold read_error_lines, read_error, csv_reader. simpl.
    destruct (files w !! p) as [[|header body]|] eqn:Hp; simpl; rewrite IH; simpl.
    + unfold read_error_lines, read_error. simpl. by rewrite <- app_assoc.
    + done.
    + unfold read_error_lines, read_error. simpl. by rewrite <- app_assoc.
Qed.

Lemma first_fields_Ok_iff (reader : list (list string)) :
  (∃ cells, first_fields reader = Ok cells) ↔ Forall (λ row, row ≠ []) reader.
Proof.
  induction reader as [|row rest IH]; simpl.
  - split; [constructor | eauto].
  - rewrite Forall_cons. destruct row as [|c row]; simpl.
    + split; [intros [? [=]] | intros [[] _]; done].
    + rewrite <- IH. destruct (first_fields rest) as [cells|e]; simpl.
      * split; eauto.
      * split; [intros [? [=]] | intros [_ [? [=]]]].
Qed.

(** X5.  The Gap Aggregator returns exactly when the pairs file has a
    header line and no row without a field below it; otherwise it
    raises, whatever the missing-data files hold (also when there is
    none), although the pairs it reads are not used. *)
Theorem aggregate_missing_data_needs_pairs_file
    (missing_data_files : list Path) (pairs_file : Path) (w : World) :
  (∃ w', aggregate_missing_data missing_data_files pairs_file w = Ok (w', aggregate_file))
  ↔ ∃ header rows,
      files w !! pairs_file = Some (header :: rows) ∧ Forall (λ row, row ≠ []) rows.
Proof.
  split.
  - intros [w' Hagg]. unfold aggregate_missing_data, read_known_pairs in Hagg.
    destruct (read_first_column pairs_file w) as [pairs|e] eqn:Hread; [| done].
    unfold read_first_column, csv_reader in Hread.
    destruct (files w !! pairs_file) as [[|header rows]|]; [done | | done].
    exists header, rows. split; [done |]. apply first_fields_Ok_iff. eauto.
  - intros (header & rows & Hfile & Hrows).
    apply first_fields_Ok_iff in Hrows as [pairs Hpairs].
    destruct (aggregate_missing_data_ok missing_data_files pairs_file w pairs)
      as (w' & Hagg & _); [| eauto].
    unfold read_first_column, csv_reader. by rewrite Hfile.
Qed.

Lemma aggregate_missing_data_world missing_data_files pairs_file w pairs :
  read_first_column pairs_file w = Ok pairs →
  aggregate_missing_data missing_data_files pairs_file w
  = Ok (mkWorld
          (<[aggregate_file :=
               missing_header ::
                 (entry_row <$> sorted_entries
                                  (mjoin (file_entries w <$> missing_data_files)))]>
             (files w))
          (stdout w ++ read_error_lines w missing_data_files
             ++ ["Saved aggregate missing data to data/missing_data.csv"]),
        aggregate_file).
Proof.
  intros Hpairs. unfold aggregate_missing_data, read_known_pairs.
  rewrite Hpairs. simpl.
  destruct (collect_missing_data_spec missing_data_files [] w) as [Hf He].
  pose proof (collect_missing_data_stdout missing_data_files [] w) as Hs.
  unfold print, write_rows. simpl. rewrite Hf, He, Hs. simpl.
  by rewrite <- app_assoc.
Qed.

Lemma file_entries_read_error w p : is_Some (read_error w p) → file_entries w p = [].
Proof.
  unfold read_error, file_entries.
  destruct (files w !! p) as [[|??]|]; [done | by intros [? [=]] | done].
Qed.

Lemma mjoin_file_entries_readable w missing_data_files :
  mjoin (file_entries w <$> filter (λ p, read_error w p = None) missing_data_files)
  = mjoin (file_entries w <$> missing_data_files).
Proof.
  induction missing_data_files as [|p ps IH]; [done |].
  rewrite filter_cons. destruct (decide (read_error w p = None)) as [Hn | Hs]; csimpl.
  - by rewrite IH.
  - rewrite IH, file_entries_read_error; [done |].
    by destruct (read_error w p); [eauto |].
Qed.

(** X6.  Given a readable pairs file, the Gap Aggregator skips the
    missing-data files it cannot read (absent, or empty): it prints one
    [Error reading] line for each, in order, before its closing line,
    and writes the report it would write if these files were not in the
    list.  It changes no file but the report. *)
Theorem aggregate_missing_data_skips_unreadable
    (missing_data_files : list Path) (pairs_file : Path) (w : World)
    (pairs : list string) :
  read_first_column pairs_file w = Ok pairs →
  ∃ w' w'' : World,
    aggregate_missing_data missing_data_files pairs_file w = Ok (w', aggregate_file)
    ∧ aggregate_missing_data
        (filter (λ p, read_error w p = None) missing_data_files) pairs_file w
      = Ok (w'', aggregate_file)
    ∧ files w' = files w''
    ∧ stdout w' = stdout w ++ read_error_lines w missing_data_files
                    ++ ["Saved aggregate missing data to data/missing_data.csv"]
    ∧ (∀ path, path ≠ aggregate_file → files w' !! path = files w !! path).
Proof.
  intros Hpairs.
  rewrite !(aggregate_missing_data_world _ _ _ _ Hpairs).
  eexists _, _. split_and!; [done | done | | done |].
  - simpl. by rewrite mjoin_file_entries_readable.
  - intros path Hne. simpl. by rewrite lookup_insert_ne.
Qed.

Lemma file_entries_ext w1 w2 p :
  files w1 !! p = files w2 !! p → file_entries w1 p = file_entries w2 p.
Proof. unfold file_entries. by intros ->. Qed.

(** X7.  Running the Gap Aggregator a second time, on the world the
    first run left, gives the same files: the report does not depend on
    the report of an earlier run, provided the report file is not itself
    one of the inputs or the pairs file. *)
Theorem aggregate_missing_data_again
    (missing_data_files : list Path) (pairs_file : Path) (w w1 : World) (out : Path) :
  aggregate_missing_data missing_data_files pairs_file w = Ok (w1, out) →
  aggregate_file ∉ missing_data_files →
  pairs_file ≠ aggregate_file →
  ∃ w2, aggregate_missing_data missing_data_files pairs_file w1 = Ok (w2, out)
        ∧ files w2 = files w1.
Proof.
  intros Hagg Hnotin Hne.
  destruct (read_first_column pairs_file w) as [pairs|e] eqn:Hpairs.
  2: { unfold aggregate_missing_data, read_known_pairs in Hagg.
       by rewrite Hpairs in Hagg. }
  rewrite (aggregate_missing_data_world _ _ _ _ Hpairs) in Hagg.
  injection Hagg as <- <-.
  set (w1 := mkWorld _ _).
  assert (∀ p, p ≠ aggregate_file → files w1 !! p = files w !! p) as Hframe.
  { intros p Hp. simpl. by rewrite lookup_insert_ne. }
  assert (read_first_column pairs_file w1 = Ok pairs) as Hpairs1.
  { revert Hpairs. unfold read_first_column, csv_reader. by rewrite Hframe. }
  rewrite (aggregate_missing_data_world _ _ _ _ Hpairs1).
  eexists. split; [done |]. simpl.
  assert (file_entries w1 <$> missing_data_files = file_entries w <$> missing_data_files)
    as ->.
  { apply Forall_fmap_ext_1, Forall_forall. intros p Hp.
    apply file_entries_ext, Hframe. by intros ->. }
  by rewrite insert_insert_eq.
Qed.

(** ** The pairs report and the dates report *)

Lemma StronglySorted_strict (l : list string) :
  StronglySorted String.le l → NoDup l → StronglySorted string_lt l.
Proof.
  induction 1 as [|x l Hs IH Hx]; intros Hnd; [constructor |].
  apply NoDup_cons in Hnd as [Hnotin Hnd]. constructor; [by apply IH |].
  apply Forall_forall. intros y Hy. split.
  - by apply (proj1 (Forall_forall _ _) Hx).
  - by intros ->.
Qed.

Lemma sorted_strings_elements (X : gset string) :
  StronglySorted string_lt (sorted_strings (elements X))
  ∧ ∀ x, x ∈ sorted_strings (elements X) ↔ x ∈ X.
Proof.
  split.
  - apply StronglySorted_strict.
    + apply StronglySorted_merge_sort; apply _.
    + unfold sorted_strings. rewrite merge_sort_Permutation. apply NoDup_elements.
  - intros x. unfold sorted_strings.
    by rewrite merge_sort_Permutation, elem_of_elements.
Qed.

Lemma list_to_set_sorted_strings (X : gset string) :
  list_to_set (sorted_strings (elements X)) = X.
Proof.
  apply set_eq. intros x. rewrite elem_of_list_to_set.
  apply sorted_strings_elements.
Qed.

(** X8.  The pairs report read back gives the set of pairs that was
    written: [write_currency_pairs_to_csv] followed by the reading of the
    known pairs in [aggregate_missing_data] is the identity on sets of
    pairs.  The rows of the report are the pairs in strictly ascending
    order, each pair once. *)
Theorem pairs_report_round_trip (currency_pairs : gset string) (w : World) :
  let r := write_currency_pairs_to_csv currency_pairs w in
  read_known_pairs r.2 r.1 = Ok currency_pairs
  ∧ ∃ pairs : list string,
      files r.1 !! r.2 = Some (pairs_header :: ((λ pair, [pair]) <$> pairs))
      ∧ StronglySorted string_lt pairs
      ∧ ∀ pair, pair ∈ pairs ↔ pair ∈ currency_pairs.
Proof.
  intros r. subst r. unfold write_currency_pairs_to_csv. simpl.
  destruct (sorted_strings_elements currency_pairs) as [Hsorted Hin].
  split.
  - rewrite (read_known_pairs_single _ _ pairs_header
               (sorted_strings (elements currency_pairs))).
    + by rewrite list_to_set_sorted_strings.
    + simpl. by rewrite lookup_insert_eq.
  - exists (sorted_strings (elements currency_pairs)).
    by rewrite lookup_insert_eq.
Qed.

(** X9.  The pairs report of [collect_currency_pairs_flow] depends only
    on the set of pairs the input file names stand for: two lists of
    input files with the same pairs, in any order and with any
    repetition, give the same world and the same report. *)
Theorem collect_currency_pairs_flow_same_pairs
    (input_files1 input_files2 : list Path) (w : World) :
  (∀ pair, pair ∈ pair_of_file <$> input_files1 ↔ pair ∈ pair_of_file <$> input_files2) →
  collect_currency_pairs_flow input_files1 w = collect_currency_pairs_flow input_files2 w.
Proof.
  intros Hsame. rewrite !collect_currency_pairs_flow_spec.
  unfold pairs_of_files.
  assert ((list_to_set ((λ file_path, replace ".csv" "" (name file_path)) <$> input_files1)
             : gset string)
          = list_to_set ((λ file_path, replace ".csv" "" (name file_path)) <$> input_files2))
    as ->; [| done].
  apply set_eq. intros pair. rewrite !elem_of_list_to_set. apply Hsame.
Qed.

Lemma collect_currency_pairs_flow_same_pairs_witness :
  collect_currency_pairs_flow [data_file "EUR_USD.csv"; data_file "EUR_SEK.csv"]
    world_header_only
  = collect_currency_pairs_flow
      [data_file "EUR_SEK.csv"; data_file "EUR_USD.csv"; data_file "EUR_SEK.csv"]
      world_header_only.
Proof.
  apply collect_currency_pairs_flow_same_pairs.
  intros pair. vm_compute fmap. rewrite !elem_of_cons, !elem_of_nil. tauto.
Defined.






(** ** Calendar Expander: when it returns, and what it covers *)

Lemma first_fields_Forall2 (reader : list (list string)) (cells : list string) :
  first_fields reader = Ok cells ↔ Forall2 (λ row cell, head row = Some cell) reader cells.
Proof.
  revert cells. induction reader as [|row rest IH]; intros cells; simpl.
  - split; [intros [= <-]; constructor | by intros ->%Forall2_nil_inv_l].
  - destruct row as [|c row]; simpl.
    + split; [done |]. intros (? & ? & [=] & _)%Forall2_cons_inv_l.
    + destruct (first_fields rest) as [cs|e] eqn:Hrest; simpl.
      * split.
        -- intros [= <-]. constructor; [done | by apply IH].
        -- intros (c' & cs' & [= <-] & Hcs & ->)%Forall2_cons_inv_l.
           apply IH in Hcs. congruence.
      * split; [done |].
        intros (c' & cs' & _ & Hcs & _)%Forall2_cons_inv_l. by apply IH in Hcs.
Qed.

Lemma Timestamp_leb_index a b :
  valid_date a → valid_date b → Timestamp_leb a b = true →
  month_index (year a) (month a) ≤ month_index (year b) (month b).
Proof.
  intros [Hm1 Hd1] [Hm2 Hd2]. unfold Timestamp_leb, Timestamp_ltb, month_index.
  rewrite negb_true_iff. intros Hle. zbool; lia.
Qed.

Lemma month_range_lookup_lt n : ∀ k (i : nat),
  (i < n)%nat → is_Some (month_range k n !! i).
Proof. intros k i Hi. apply lookup_lt_is_Some_2. by rewrite length_month_range. Qed.

Section CalendarMore.

Context (parse_date : string → option (Z * Z * Z)).

Lemma to_datetimes_Ok dates ts :
  to_datetimes parse_date dates = Ok ts ↔
  Forall2 (λ date t, to_datetime parse_date date = Ok t) dates ts.
Proof.
  split; [| apply to_datetimes_Forall2].
  revert ts. induction dates as [|date dates IH]; intros ts; simpl.
  - intros [= <-]. constructor.
  - destruct (to_datetime parse_date date) as [t|e] eqn:Ht; [| done]. simpl.
    destruct (to_datetimes parse_date dates) as [ts'|e] eqn:Hts; [| done]. simpl.
    intros [= <-]. constructor; [done | by apply IH].
Qed.

Lemma to_datetimes_valid dates ts :
  to_datetimes parse_date dates = Ok ts → Forall valid_date ts.
Proof.
  intros Hts%to_datetimes_Ok.
  induction Hts as [|???? Ht]; constructor; [by eapply to_datetime_valid | done].
Qed.

(** The months the Calendar Expander returns for a non-empty list of
    dates that pandas reads. *)
Lemma generate_expected_months_nonempty dates_file w date more first others :
  read_first_column dates_file w = Ok (date :: more) →
  to_datetime parse_date date = Ok first →
  to_datetimes parse_date more = Ok others →
  generate_expected_months parse_date dates_file w
  = Ok (month_key <$>
          month_range (year (py_min first others), month (py_min first others))
            (Z.to_nat
               (month_index (year (py_max first others)) (month (py_max first others))
                - month_index (year (py_min first others)) (month (py_min first others))
                + 1))).
Proof.
  intros Hread Hfirst Hothers.
  assert (Forall valid_date (first :: others)) as Hvalid.
  { constructor; [by eapply to_datetime_valid | by eapply to_datetimes_valid]. }
  destruct (py_min_least others first) as [Hmin_in _].
  destruct (py_max_greatest others first) as [Hmax_in _].
  pose proof (proj1 (Forall_forall _ _) Hvalid _ Hmin_in) as Hvmin.
  pose proof (proj1 (Forall_forall _ _) Hvalid _ Hmax_in) as Hvmax.
  unfold generate_expected_months. rewrite Hread. simpl.
  rewrite Hfirst. simpl. rewrite Hothers. simpl.
  rewrite Timestamp_new_first by apply Hvmin. simpl.
  rewrite (month_loop_range
             (Z.to_nat
                (month_index (year (py_max first others)) (month (py_max first others))
                 - month_index (year (py_min first others)) (month (py_min first others))
                 + 1))); [done | apply Hvmin | done | lia].
Qed.




(** X12.  The month of every date of the dates file is among the
    expected months: when the Calendar Expander returns, the month key
    of each date it has read is in its list. *)
Theorem generate_expected_months_covers_dates
    (dates_file : Path) (w : World) (months : list string)
    (header : list string) (rows : list (list string))
    (row : list string) (date : string) (t : Timestamp) :
  generate_expected_months parse_date dates_file w = Ok months →
  files w !! dates_file = Some (header :: rows) →
  row ∈ rows → head row = Some date → to_datetime parse_date date = Ok t →
  month_key (year t, month t) ∈ months.
Proof.
  intros Hgen Hfile Hrow Hhead Ht.
  pose proof Hgen as Hgen2. unfold generate_expected_months in Hgen2.
  destruct (read_first_column dates_file w) as [dates|e] eqn:Hread; [| done].
  pose proof Hread as Hcells.
  unfold read_first_column, csv_reader in Hcells. rewrite Hfile in Hcells.
  simpl in Hcells. apply first_fields_Forall2 in Hcells.
  assert (date ∈ dates) as Hdate.
  { apply list_elem_of_lookup in Hrow as [i Hi].
    destruct (Forall2_lookup_l _ _ _ _ _ Hcells Hi) as (d & Hd & Hhd).
    rewrite Hhead in Hhd. injection Hhd as <-. by eapply list_elem_of_lookup_2. }
  destruct dates as [|date0 more]; [by apply elem_of_nil in Hdate |].
  simpl in Hgen2.
  destruct (to_datetime parse_date date0) as [first|] eqn:Hfirst; [| done].
  simpl in Hgen2.
  destruct (to_datetimes parse_date more) as [others|] eqn:Hothers; [| done].
  clear Hgen2.
  rewrite (generate_expected_months_nonempty _ _ _ _ _ _ Hread Hfirst Hothers) in Hgen.
  injection Hgen as <-.
  assert (t ∈ first :: others) as Hin.
  { apply elem_of_cons in Hdate as [-> | Hdate].
    - apply elem_of_cons. left. congruence.
    - apply elem_of_cons. right. apply to_datetimes_Ok in Hothers.
      apply list_elem_of_lookup in Hdate as [i Hi].
      destruct (Forall2_lookup_l _ _ _ _ _ Hothers Hi) as (t' & Ht' & Hparse).
      rewrite Ht in Hparse. injection Hparse as <-. by eapply list_elem_of_lookup_2. }
  assert (Forall valid_date (first :: others)) as Hvalid.
  { constructor; [by eapply to_datetime_valid | by eapply to_datetimes_valid]. }
  destruct (py_min_least others first) as [Hmin_in Hmin_le].
  destruct (py_max_greatest others first) as [Hmax_in Hmax_le].
  pose proof (proj1 (Forall_forall _ _) Hvalid _ Hmin_in) as Hvmin.
  pose proof (proj1 (Forall_forall _ _) Hvalid _ Hmax_in) as Hvmax.
  pose proof (proj1 (Forall_forall _ _) Hvalid _ Hin) as Hvt.
  pose proof (Timestamp_leb_index _ _ Hvmin Hvt (Hmin_le _ Hin)) as Hlo.
  pose proof (Timestamp_leb_index _ _ Hvt Hvmax (Hmax_le _ Hin)) as Hhi.
  set (mn := py_min first others) in *. set (mx := py_max first others) in *.
  set (n := Z.to_nat (month_index (year mx) (month mx)
                      - month_index (year mn) (month mn) + 1)).
  set (i := Z.to_nat (month_index (year t) (month t) - month_index (year mn) (month mn))).
  destruct (month_range_lookup_lt n (year mn, month mn) i) as [a Ha]; [unfold i, n; lia |].
  destruct (month_range_lookup n (year mn, month mn) i a) as [Hva Hia];
    [apply Hvmin | done |].
  assert (a = (year t, month t)) as ->.
  { apply month_index_inj; [done | apply Hvt |]. simpl in *. unfold i in Hia. lia. }
  apply list_elem_of_fmap. exists (year t, month t). split; [done |].
  by eapply list_elem_of_lookup_2.
Qed.

End CalendarMore.

(** ** Monthly Aggregator: what it writes, and the Gap Detector after it *)

Lemma column_index_stats_header : column_index "month_str" stats_header = Some 0%nat.
Proof. reflexivity. Qed.

Section MonthlyStatsMore.

Context (monthly_table : DataFrame → result (list (list string))).

Lemma compute_monthly_stats_cases file_path w :
  (∃ df monthly_stats,
      read_csv file_path w = Ok df
      ∧ "DATE" ∈ columns df ∧ "RATE" ∈ columns df
      ∧ monthly_table df = Ok monthly_stats
      ∧ (compute_monthly_stats monthly_table file_path w).2
        = Some (stats_file (pair_of_file file_path))
      ∧ files (compute_monthly_stats monthly_table file_path w).1
        = <[stats_file (pair_of_file file_path) := stats_header :: monthly_stats]> (files w))
  ∨ ((compute_monthly_stats monthly_table file_path w).2 = None
     ∧ files (compute_monthly_stats monthly_table file_path w).1 = files w
     ∧ ¬ ∃ df monthly_stats,
           read_csv file_path w = Ok df
           ∧ "DATE" ∈ columns df ∧ "RATE" ∈ columns df
           ∧ monthly_table df = Ok monthly_stats).
Proof.
  unfold compute_monthly_stats, pair_of_file.
  destruct (read_csv file_path w) as [df|e] eqn:Hread.
  - destruct (decide ("DATE" ∈ columns df)) as [Hd | Hd];
      [rewrite (bool_decide_eq_true_2 _ Hd) | rewrite (bool_decide_eq_false_2 _ Hd)];
      simpl.
    + destruct (decide ("RATE" ∈ columns df)) as [Hr | Hr];
        [rewrite (bool_decide_eq_true_2 _ Hr) | rewrite (bool_decide_eq_false_2 _ Hr)];
        simpl.
      * destruct (monthly_table df) as [rows|e] eqn:Hmt; simpl.
        -- left. by exists df, rows.
        -- right. split_and!; [done | done |].
           intros (df' & rows & [= <-] & _ & _ & Hmt'). congruence.
      * right. split_and!; [done | done |]. by intros (df' & rows & [= <-] & _ & ? & _).
    + right. split_and!; [done | done |]. by intros (df' & rows & [= <-] & ? & _).
  - right. split_and!; [done | done |]. by intros (df' & rows & [=] & _).
Qed.

(** X13.  The Monthly Aggregator returns a path exactly when the input
    file can be read, has the [DATE] and the [RATE] column, and pandas
    computes the statistics; the path is then the pair's stats file,
    which now holds the header and the computed rows, and no other file
    is changed.  In every other case (file absent or empty, a column
    missing, pandas raising) it returns nothing and leaves every file as
    it was. *)
Theorem compute_monthly_stats_outcome (file_path : Path) (w : World) :
  let r := compute_monthly_stats monthly_table file_path w in
  let produced :=
    ∃ df monthly_stats,
      read_csv file_path w = Ok df
      ∧ "DATE" ∈ columns df ∧ "RATE" ∈ columns df
      ∧ monthly_table df = Ok monthly_stats
      ∧ files r.1 = <[stats_file (pair_of_file file_path) := stats_header :: monthly_stats]>
                      (files w) in
  (r.2 = Some (stats_file (pair_of_file file_path)) ↔ produced)
  ∧ (r.2 = None ↔ ¬ produced)
  ∧ (r.2 = None → files r.1 = files w).
Proof.
  intros r produced. subst r produced.
  destruct (compute_monthly_stats_cases file_path w)
    as [(df & rows & Hread & Hd & Hr & Hmt & Hret & Hfiles) | (Hret & Hfiles & Hnot)].
  - rewrite Hret. split_and!.
    + split; [| done]. intros _. by exists df, rows.
    + split; [done |]. intros Hn. exfalso. apply Hn. by exists df, rows.
    + done.
  - rewrite Hret. split_and!.
    + split; [done |]. intros (df & rows & ? & ? & ? & ? & _). exfalso. apply Hnot.
      by exists df, rows.
    + split; [| done]. intros _ (df & rows & ? & ? & ? & ? & _). apply Hnot.
      by exists df, rows.
    + done.
Qed.

(** X14.  After the Monthly Aggregator has written the stats of a file,
    the Gap Detector, asked about the pair of that file's name, reads
    these stats: it returns the pair's missing-data file, whose entries
    are the expected months that are not the first cell of a computed
    row. *)
Theorem gap_detection_after_monthly_stats
    (file_path : Path) (w : World) (df : DataFrame)
    (monthly_stats : list (list string)) (expected_months : list string) :
  read_csv file_path w = Ok df →
  "DATE" ∈ columns df → "RATE" ∈ columns df →
  monthly_table df = Ok monthly_stats →
  let currency_pair := pair_of_file file_path in
  let w1 := (compute_monthly_stats monthly_table file_path w).1 in
  let r := identify_missing_data_for_pair currency_pair expected_months w1 in
  r.2 = Some (missing_file currency_pair)
  ∧ files r.1 !! missing_file currency_pair
    = Some (missing_rows currency_pair
              (filter (λ month, month ∉ omap (λ row : list string, row !! 0%nat) monthly_stats)
                 expected_months)).
Proof.
  intros Hread Hd Hr Hmt currency_pair w1 r. subst r w1 currency_pair.
  destruct (compute_monthly_stats_cases file_path w)
    as [(df' & rows & Hread' & _ & _ & Hmt' & _ & Hfiles) | (_ & _ & Hnot)].
  2: { exfalso. apply Hnot. by exists df, monthly_stats. }
  rewrite Hread in Hread'. injection Hread' as <-.
  rewrite Hmt in Hmt'. injection Hmt' as <-.
  set (w1 := (compute_monthly_stats monthly_table file_path w).1) in *.
  assert (files w1 !! stats_file (pair_of_file file_path)
          = Some (stats_header :: monthly_stats)) as Hstats.
  { by rewrite Hfiles, lookup_insert_eq. }
  rewrite (identify_present _ _ _ _ _ _ Hstats column_index_stats_header). simpl.
  by rewrite lookup_insert_eq, filter_not_in_set.
Qed.

End MonthlyStatsMore.

(** ** Normalizer: what it writes, and the names down the pipeline *)

Lemma replace_no_occurrence (old new s : string) :
  occurs old s = false → replace old new s = s.
Proof.
  unfold replace. induction s as [|c s IH]; [done |].
  change (occurs old (String c s))
    with (String.prefix old (String c s) || occurs old s).
  intros [Hp Hocc]%orb_false_iff.
  cbn [replace_from]. rewrite Hp. by rewrite IH.
Qed.

Lemma replace_from_skip (old new : string) (skipped rest : string) :
  replace_from old new (String.length skipped) (skipped +:+ rest)
  = replace_from old new 0%nat rest.
Proof.
  induction skipped as [|c skipped IH]; [done |].
  rewrite append_cons. simpl. apply IH.
Qed.

Lemma prefix_app (old rest : string) : String.prefix old (old +:+ rest) = true.
Proof.
  induction old as [|c old IH]; [apply prefix_nil_l |].
  rewrite append_cons, prefix_cons. by destruct (Ascii.ascii_dec c c).
Qed.

(** A leading occurrence of [old] is removed, and the replacement goes
    on behind it. *)
Lemma replace_leading (c : Ascii.ascii) (old rest : string) :
  replace (String c old) "" (String c old +:+ rest) = replace (String c old) "" rest.
Proof.
  unfold replace. rewrite append_cons. cbn [replace_from].
  assert (String.prefix (String c old) (String c (old +:+ rest)) = true) as ->.
  { rewrite prefix_cons. destruct (Ascii.ascii_dec c c); [apply prefix_app | done]. }
  rewrite append_nil_l.
  replace (String.length (String c old) - 1)%nat with (String.length old)
    by (cbn [String.length]; lia).
  apply replace_from_skip.
Qed.

Lemma occurs_csv_EUR (code : string) :
  occurs ".csv" code = false → occurs ".csv" ("EUR_" +:+ code) = false.
Proof.
  intros Hocc. rewrite !append_cons, append_nil_l.
  cbn [occurs]. rewrite !prefix_cons.
  repeat match goal with
         | |- context [Ascii.ascii_dec ?a ?b] =>
             destruct (Ascii.ascii_dec a b) as [Heq | _]; [discriminate Heq |]
         end.
  done.
Qed.

(** The file names of a currency code down the pipeline: the raw file
    [ECB_EUR_<code>.csv] is cleaned into [EUR_<code>.csv], whose pair is
    [EUR_<code>]. *)
Lemma raw_file_currency (code : string) :
  occurs ".csv" code = false →
  occurs "ECB_EUR_" (code +:+ ".csv") = false →
  replace ".csv" "" (replace "ECB_EUR_" "" ("ECB_EUR_" +:+ code +:+ ".csv")) = code.
Proof.
  intros Hcsv Hecb.
  rewrite (replace_leading _ _ (code +:+ ".csv")).
  rewrite (replace_no_occurrence _ _ _ Hecb).
  by apply replace_csv_suffix.
Qed.

Lemma pair_of_cleaned_file (code : string) :
  occurs ".csv" code = false →
  pair_of_file (cleaned_file code) = "EUR_" +:+ code.
Proof.
  intros Hcsv. unfold pair_of_file, cleaned_file. simpl.
  apply (replace_csv_suffix ("EUR_" +:+ code)). by apply occurs_csv_EUR.
Qed.

Section CleaningFacts.

Context (cleaned_rows : DataFrame → list (list string)).

Lemma forallb_raw_columns (cols : list string) :
  forallb (λ col, bool_decide (col ∈ cols)) raw_columns = true
  ↔ Forall (λ col, col ∈ cols) raw_columns.
Proof.
  unfold raw_columns. simpl. rewrite !andb_true_iff, !bool_decide_eq_true.
  rewrite !Forall_cons. split; [intros (? & ? & ? & ? & _) | intros (? & ? & ? & ? & _)];
    split_and!; done || constructor.
Qed.

Lemma clean_up_currency_data_cases file_path w :
  let currency := replace ".csv" "" (replace "ECB_EUR_" "" (name file_path)) in
  (∃ df,
      read_csv file_path w = Ok df
      ∧ Forall (λ col, col ∈ columns df) raw_columns
      ∧ (clean_up_currency_data cleaned_rows file_path w).2 = Some (cleaned_file currency)
      ∧ files (clean_up_currency_data cleaned_rows file_path w).1
        = <[cleaned_file currency := cleaned_header :: cleaned_rows df]> (files w))
  ∨ ((clean_up_currency_data cleaned_rows file_path w).2 = None
     ∧ files (clean_up_currency_data cleaned_rows file_path w).1 = files w
     ∧ ¬ ∃ df, read_csv file_path w = Ok df
               ∧ Forall (λ col, col ∈ columns df) raw_columns).
Proof.
  intros currency. subst currency. unfold clean_up_currency_data.
  destruct (read_csv file_path w) as [df|e] eqn:Hread.
  - destruct (forallb (λ col, bool_decide (col ∈ columns df)) raw_columns) eqn:Hcols.
    + left. exists df. by apply forallb_raw_columns in Hcols.
    + right. split_and!; [done | done |]. intros (df' & [= <-] & Hall).
      apply forallb_raw_columns in Hall. congruence.
  - right. split_and!; [done | done |]. by intros (df' & [=] & _).
Qed.


(** X16.  The names line up along the pipeline.  For a raw file named
    [ECB_EUR_<code>.csv] (a code in which neither [.csv] occurs nor
    [ECB_EUR_] is completed by the suffix), the Normalizer, when it
    returns, returns [data/EUR_<code>.csv]; the Pair/Date Collector reads
    the pair [EUR_<code>] off that name; and the Monthly Aggregator's
    output for that file is the stats file of the same pair, the one the
    Gap Detector looks up. *)
Theorem file_names_along_the_pipeline
    (file_path : Path) (code : string) (w : World) (out : Path) :
  name file_path = "ECB_EUR_" +:+ code +:+ ".csv" →
  occurs ".csv" code = false →
  occurs "ECB_EUR_" (code +:+ ".csv") = false →
  (clean_up_currency_data cleaned_rows file_path w).2 = Some out →
  out = data_file ("EUR_" +:+ code +:+ ".csv")
  ∧ collect_currency_pairs out = {[ "EUR_" +:+ code ]}
  ∧ ∀ monthly_table w1 stats,
      (compute_monthly_stats monthly_table out w1).2 = Some stats →
      stats = stats_file ("EUR_" +:+ code).
Proof.
  intros Hname Hcsv Hecb Hret.
  assert (out = cleaned_file code) as ->.
  { destruct (clean_up_currency_data_cases file_path w)
      as [(df & _ & _ & Hret' & _) | (Hret' & _)]; [| congruence].
    rewrite Hret in Hret'. injection Hret' as ->.
    by rewrite Hname, raw_file_currency. }
  pose proof (pair_of_cleaned_file code Hcsv) as Hpair.
  split_and!.
  - done.
  - unfold collect_currency_pairs. fold (pair_of_file (cleaned_file code)).
    by rewrite Hpair.
  - intros monthly_table w1 stats Hstats.
    destruct (compute_monthly_stats_cases monthly_table (cleaned_file code) w1)
      as [(? & ? & _ & _ & _ & _ & Hret' & _) | (Hret' & _)]; [| congruence].
    rewrite Hstats in Hret'. injection Hret' as ->. by rewrite Hpair.
Qed.

End CleaningFacts.

(** ** The whole pipeline *)




Section WholePipelineFacts.

Context (download_currency_data_flow : World → result (World * list Path)).
Context (cleaned_rows : DataFrame → list (list string)).
Context (parse_date : string → option (Z * Z * Z)).
Context (monthly_table : DataFrame → result (list (list string))).


End WholePipelineFacts.

(** ** The further properties on concrete worlds *)



Lemma aggregate_missing_data_skips_unreadable_witness :
  ∃ w' w'' : World,
    aggregate_missing_data [missing_file "EUR_JPY"; missing_file "EUR_GBP"]
      (data_file "pairs.csv") world_unknown_pair = Ok (w', aggregate_file)
    ∧ aggregate_missing_data
        (filter (λ p, read_error world_unknown_pair p = None)
           [missing_file "EUR_JPY"; missing_file "EUR_GBP"])
        (data_file "pairs.csv") world_unknown_pair = Ok (w'', aggregate_file)
    ∧ files w' = files w''.
Proof.
  destruct (aggregate_missing_data_skips_unreadable
              [missing_file "EUR_JPY"; missing_file "EUR_GBP"]
              (data_file "pairs.csv") world_unknown_pair ["EUR_USD"])
    as (w' & w'' & H1 & H2 & H3 & _).
  - vm_compute. reflexivity.
  - exists w', w''. split_and!; [exact H1 | exact H2 | exact H3].
Defined.

Lemma aggregate_missing_data_again_witness :
  ∃ w2,
    aggregate_missing_data [missing_file "EUR_USD"; missing_file "EUR_SEK"]
      (data_file "pairs.csv") world_gaps_aggregated = Ok (w2, aggregate_file)
    ∧ files w2 = files world_gaps_aggregated.
Proof.
  apply (aggregate_missing_data_again
           [missing_file "EUR_USD"; missing_file "EUR_SEK"]
           (data_file "pairs.csv") world_gaps world_gaps_aggregated aggregate_file).
  - vm_compute. reflexivity.
  - apply (bool_decide_unpack _). vm_compute. exact I.
  - discriminate.
Defined.

Lemma generate_expected_months_covers_dates_witness :
  month_key (2023, 12) ∈ ["2023-11"; "2023-12"; "2024-01"; "2024-02"].
Proof.
  apply (generate_expected_months_covers_dates parse_iso_date
           (data_file "dates.csv") world_three_dates
           ["2023-11"; "2023-12"; "2024-01"; "2024-02"]
           dates_header [ ["2023-11-15"]; ["2023-12-01"]; ["2024-02-03"] ]
           ["2023-12-01"] "2023-12-01" (mkTimestamp 2023 12 1)).
  - vm_compute. reflexivity.
  - vm_compute. reflexivity.
  - apply elem_of_cons. right. apply elem_of_cons. by left.
  - reflexivity.
  - reflexivity.
Defined.

Lemma gap_detection_after_monthly_stats_witness :
  (identify_missing_data_for_pair "EUR_USD" ["2024-01"; "2024-02"]
     (compute_monthly_stats (λ _, Ok [ ["2024-01"; "1.09"; "1.10"; "1.095"] ])
        (data_file "EUR_USD.csv") world_header_only).1).2
  = Some (missing_file "EUR_USD").
Proof.
  destruct (gap_detection_after_monthly_stats
              (λ _, Ok [ ["2024-01"; "1.09"; "1.10"; "1.095"] ])
              (data_file "EUR_USD.csv") world_header_only
              (mkDataFrame ["CURRENCY"; "CURRENCY_DENOM"; "DATE"; "RATE"] [])
              [ ["2024-01"; "1.09"; "1.10"; "1.095"] ] ["2024-01"; "2024-02"])
    as [Hret _].
  - vm_compute. reflexivity.
  - apply (bool_decide_unpack _). vm_compute. exact I.
  - apply (bool_decide_unpack _). vm_compute. exact I.
  - reflexivity.
  - exact Hret.
Defined.

Lemma file_names_along_the_pipeline_witness :
  data_file "EUR_USD.csv" = data_file ("EUR_" +:+ "USD" +:+ ".csv")
  ∧ collect_currency_pairs (data_file "EUR_USD.csv") = {[ "EUR_" +:+ "USD" ]}.
Proof.
  destruct (file_names_along_the_pipeline (λ df, rows df)
              (data_file "ECB_EUR_USD.csv") "USD" world_raw (data_file "EUR_USD.csv"))
    as (Hout & Hpair & _).
  - reflexivity.
  - vm_compute. reflexivity.
  - vm_compute. reflexivity.
  - vm_compute. reflexivity.
  - split; [exact Hout | exact Hpair].
Defined.
